(** * The entropy accumulator of tls/entropy.c

    A shallow embedding of the accumulator (registration of sources, the
    mix step, one gather round, the extraction entry point) together with
    the properties its specification states about it.

    Conventions.
    - C [int] and [size_t] values are [Z]; [size_t] additions are reduced
      modulo [2^64] where the code performs them.
    - A byte string is a [list Z] of values in [0, 256).
    - Every function that runs under [ctx->mutex] is modelled by its
      sequential behaviour; the lock itself is not part of the state.
    - A result [None] stands for undefined behaviour of the C code (a call
      through a null function pointer, an index outside [ctx->source]) or,
      for loops that carry fuel, for exhausted fuel. *)

From Stdlib Require Import ZArith Lia.
From stdpp Require Import base option list.

Open Scope Z_scope.

Definition bytes := list Z.

(** ** What the code takes from headers that are not part of the sources *)

(** The macros of entropy.h.  Their values are not fixed here: they are
    fields, together with the few facts about them that the header
    guarantees in every build (error codes are nonzero and differ from one
    another, the block size is that of SHA-256 or SHA-512 and hence fits
    a byte). *)
Class EntropyH := {
  MBEDTLS_ENTROPY_BLOCK_SIZE : Z;
  MBEDTLS_ENTROPY_MAX_SOURCES : Z;
  MBEDTLS_ENTROPY_MAX_GATHER : Z;
  MBEDTLS_ENTROPY_SOURCE_MANUAL : Z;
  MBEDTLS_ENTROPY_SOURCE_STRONG : Z;
  MBEDTLS_ENTROPY_SOURCE_WEAK : Z;
  MBEDTLS_ERR_ENTROPY_SOURCE_FAILED : Z;
  MBEDTLS_ERR_ENTROPY_MAX_SOURCES : Z;
  MBEDTLS_ERR_ENTROPY_NO_SOURCES_DEFINED : Z;
  MBEDTLS_ERR_ENTROPY_NO_STRONG_SOURCE : Z;
  BLOCK_SIZE_range : 0 < MBEDTLS_ENTROPY_BLOCK_SIZE <= 255;
  MAX_SOURCES_nonneg : 0 <= MBEDTLS_ENTROPY_MAX_SOURCES;
  MAX_GATHER_nonneg : 0 <= MBEDTLS_ENTROPY_MAX_GATHER;
  STRONG_not_WEAK : MBEDTLS_ENTROPY_SOURCE_STRONG <> MBEDTLS_ENTROPY_SOURCE_WEAK;
  ERR_SOURCE_FAILED_nonzero : MBEDTLS_ERR_ENTROPY_SOURCE_FAILED <> 0;
  ERR_MAX_SOURCES_nonzero : MBEDTLS_ERR_ENTROPY_MAX_SOURCES <> 0;
  ERR_NO_SOURCES_DEFINED_nonzero : MBEDTLS_ERR_ENTROPY_NO_SOURCES_DEFINED <> 0;
  ERR_NO_STRONG_SOURCE_nonzero : MBEDTLS_ERR_ENTROPY_NO_STRONG_SOURCE <> 0;
  ERR_codes_distinct :
    MBEDTLS_ERR_ENTROPY_SOURCE_FAILED <> MBEDTLS_ERR_ENTROPY_MAX_SOURCES /\
    MBEDTLS_ERR_ENTROPY_SOURCE_FAILED <> MBEDTLS_ERR_ENTROPY_NO_SOURCES_DEFINED /\
    MBEDTLS_ERR_ENTROPY_SOURCE_FAILED <> MBEDTLS_ERR_ENTROPY_NO_STRONG_SOURCE /\
    MBEDTLS_ERR_ENTROPY_MAX_SOURCES <> MBEDTLS_ERR_ENTROPY_NO_SOURCES_DEFINED /\
    MBEDTLS_ERR_ENTROPY_MAX_SOURCES <> MBEDTLS_ERR_ENTROPY_NO_STRONG_SOURCE /\
    MBEDTLS_ERR_ENTROPY_NO_SOURCES_DEFINED <> MBEDTLS_ERR_ENTROPY_NO_STRONG_SOURCE;
}.

(** The hash primitive (sha256.h or sha512.h, chosen by
    MBEDTLS_ENTROPY_SHA512_ACCUMULATOR; both branches of every #if in
    entropy.c have the same shape).  Every [_ret] function returns its
    [int] status first.  [sha_finish_ret] and [sha_ret] also return the
    bytes they leave in their output buffer. *)
Class Sha := {
  sha_context : Type;
  sha_init : sha_context;
  sha_free : sha_context -> sha_context;
  sha_starts_ret : sha_context -> Z -> Z * sha_context;
  sha_update_ret : sha_context -> bytes -> Z * sha_context;
  sha_finish_ret : sha_context -> Z * sha_context * bytes;
  sha_ret : bytes -> Z -> Z * bytes;
}.

(** The environment of the poll callbacks: [world] is the state of
    whatever they read (clocks, the hardware generator), [handle] is the
    type of the [void *p_source] argument. *)
Class Platform := {
  world : Type;
  handle : Type;
  NULL : handle;
}.

(** ** Helpers for memory *)

(** [mbedtls_zeroize v n] writes 0 to the first [n] bytes of [v].  Writing
    past the end of the object is undefined in C; the model stops at the end. *)
Fixpoint mbedtls_zeroize (v : bytes) (n : nat) : bytes :=
  match n, v with
  | S n', _ :: v' => 0 :: mbedtls_zeroize v' n'
  | _, _ => v
  end.

(** The first [n] bytes at [p]. *)
Definition mem_read (p : bytes) (n : Z) : bytes := take (Z.to_nat n) p.

(** [memcpy(dst, src, n)]. *)
Definition memcpy (dst src : bytes) (n : Z) : bytes :=
  take (Z.to_nat n) src ++ drop (Z.to_nat n) dst.

Definition zeroized (v : bytes) : Prop := Forall (fun b => b = 0) v.

(** Addition on [size_t]. *)
Definition size_t_add (a b : Z) : Z := (a + b) mod 2 ^ 64.

(** Conversion to [unsigned char]. *)
Definition to_uchar (x : Z) : Z := x mod 256.

Definition nonzero (x : Z) : bool := negb (x =? 0).

(** The call has a defined result. *)
Definition defined {A} (o : option A) : bool :=
  match o with Some _ => true | None => false end.

(** What a poll callback leaves behind: its return value, the contents of
    the output buffer and the value of the variable behind [olen]. *)
Record poll_result := {
  poll_ret : Z;
  poll_output : bytes;
  poll_olen : Z;
}.

(** A poll callback: it receives the handle, the output buffer and its
    length, and the world; the variable behind [olen] is 0 on entry. *)
Definition mbedtls_entropy_f_source_ptr `{Platform} : Type :=
  handle -> bytes -> Z -> world -> poll_result * world.

(** entropy_poll.h, havege.h and the configuration: the default sources
    that [mbedtls_entropy_init] registers. *)
Class EntropyPoll `{Platform} := {
  MBEDTLS_NO_DEFAULT_ENTROPY_SOURCES : bool;
  MBEDTLS_HAVEGE_C : bool;
  mbedtls_hardclock_poll : mbedtls_entropy_f_source_ptr;
  mbedtls_havege_poll : mbedtls_entropy_f_source_ptr;
  mbedtls_hardware_poll : mbedtls_entropy_f_source_ptr;
  havege_data : handle;
  MBEDTLS_ENTROPY_MIN_HARDCLOCK : Z;
  MBEDTLS_ENTROPY_MIN_HAVEGE : Z;
  MBEDTLS_ENTROPY_MIN_HARDWARE : Z;
}.

(** ** The context *)

Section Entropy.
Context {EH : EntropyH} {SH : Sha} {PF : Platform} {EP : EntropyPoll}.

Record mbedtls_entropy_source_state := {
  f_source : option mbedtls_entropy_f_source_ptr;   (* None: null pointer *)
  p_source : handle;
  size : Z;
  threshold : Z;
  strong : Z;
}.

Record mbedtls_entropy_context := {
  accumulator_started : Z;
  accumulator : sha_context;
  source_count : Z;
  source : list mbedtls_entropy_source_state;
}.

Definition set_accumulator (ctx : mbedtls_entropy_context) (a : sha_context) :=
  {| accumulator_started := accumulator_started ctx; accumulator := a;
     source_count := source_count ctx; source := source ctx |}.

Definition set_accumulator_started (ctx : mbedtls_entropy_context) (b : Z) :=
  {| accumulator_started := b; accumulator := accumulator ctx;
     source_count := source_count ctx; source := source ctx |}.

Definition set_source_count (ctx : mbedtls_entropy_context) (n : Z) :=
  {| accumulator_started := accumulator_started ctx; accumulator := accumulator ctx;
     source_count := n; source := source ctx |}.

Definition set_source (ctx : mbedtls_entropy_context)
    (l : list mbedtls_entropy_source_state) :=
  {| accumulator_started := accumulator_started ctx; accumulator := accumulator ctx;
     source_count := source_count ctx; source := l |}.

Definition set_size (s : mbedtls_entropy_source_state) (n : Z) :=
  {| f_source := f_source s; p_source := p_source s; size := n;
     threshold := threshold s; strong := strong s |}.

(** An entry of [ctx->source] after [memset(.., 0, ..)]. *)
Definition zero_source : mbedtls_entropy_source_state :=
  {| f_source := None; p_source := NULL; size := 0; threshold := 0; strong := 0 |}.

Definition ENTROPY_MAX_LOOP : Z := 256.

(** [ctx->source[i]]: defined for an index inside the array only. *)
Definition source_at (ctx : mbedtls_entropy_context) (i : Z)
    : option mbedtls_entropy_source_state :=
  if i <? 0 then None else source ctx !! Z.to_nat i.

(** ** mbedtls_entropy_add_source *)

Definition mbedtls_entropy_add_source (ctx : mbedtls_entropy_context)
    (f : option mbedtls_entropy_f_source_ptr) (p : handle)
    (thr : Z) (strg : Z) : option (Z * mbedtls_entropy_context) :=
  let idx := source_count ctx in
  if idx >=? MBEDTLS_ENTROPY_MAX_SOURCES then
    Some (MBEDTLS_ERR_ENTROPY_MAX_SOURCES, ctx)
  else
    match source_at ctx idx with
    | None => None
    | Some s =>
        let s' := {| f_source := f; p_source := p; size := size s;
                     threshold := thr; strong := strg |} in
        let ctx := set_source ctx (<[Z.to_nat idx := s']> (source ctx)) in
        Some (0, set_source_count ctx (source_count ctx + 1))
    end.

(** ** entropy_update: the mix step *)

Definition entropy_update (ctx : mbedtls_entropy_context) (source_id : Z)
    (data : bytes) (len : Z) : Z * mbedtls_entropy_context :=
  let '(ret, p, use_len) :=
    if len >? MBEDTLS_ENTROPY_BLOCK_SIZE then
      let '(ret, tmp) := sha_ret (mem_read data len) 0 in
      (ret, tmp, MBEDTLS_ENTROPY_BLOCK_SIZE)
    else (0, data, len) in
  if nonzero ret then (ret, ctx)
  else
    let header := [source_id; Z.land use_len 255] in
    let '(ret, acc) :=
      if accumulator_started ctx =? 0
      then sha_starts_ret (accumulator ctx) 0
      else (0, accumulator ctx) in
    if (accumulator_started ctx =? 0) && nonzero ret then
      (ret, set_accumulator ctx acc)
    else
      let ctx := set_accumulator_started ctx 1 in
      let '(ret, acc) := sha_update_ret acc (mem_read header 2) in
      if nonzero ret then (ret, set_accumulator ctx acc)
      else
        let '(ret, acc) := sha_update_ret acc (mem_read p use_len) in
        (ret, set_accumulator ctx acc).

Definition mbedtls_entropy_update_manual (ctx : mbedtls_entropy_context)
    (data : bytes) (len : Z) : Z * mbedtls_entropy_context :=
  entropy_update ctx (to_uchar MBEDTLS_ENTROPY_SOURCE_MANUAL) data len.

(** ** entropy_gather_internal: one round over the sources *)

(** The exit taken by a round. *)
Inductive gather_path :=
  | NoSources                 (* return at the source_count == 0 test *)
  | LoopDone                  (* the for loop ran to its end *)
  | PollFailed (i : Z)        (* goto cleanup after the callback of source i *)
  | UpdateFailed (i : Z).     (* return ret after entropy_update for source i *)

(** One call of a poll callback, as observed by the round. *)
Record poll_event := {
  ev_index : Z;
  ev_ret : Z;
  ev_olen : Z;
  ev_output : bytes;
}.

Definition poll_event_of (i : Z) (r : poll_result) : poll_event :=
  {| ev_index := i; ev_ret := poll_ret r; ev_olen := poll_olen r;
     ev_output := poll_output r |}.

(** What a round leaves behind.  [g_buf] is the content of the local
    array [buf] at the moment the function returns; [g_path] and [g_polls]
    record the exit taken and the callbacks invoked, in order. *)
Record gather_result := {
  g_ret : Z;
  g_ctx : mbedtls_entropy_context;
  g_world : world;
  g_buf : bytes;
  g_path : gather_path;
  g_polls : list poll_event;
}.

(** [ctx->source[i].size += olen] *)
Definition add_size (ctx : mbedtls_entropy_context) (i : Z) (olen : Z) :=
  set_source ctx
    (alter (fun s => set_size s (size_t_add (size s) olen)) (Z.to_nat i) (source ctx)).

(** [if (ctx->source[i].strong == MBEDTLS_ENTROPY_SOURCE_STRONG)
    have_one_strong = 1;] *)
Definition note_strong (s : mbedtls_entropy_source_state) (have_one_strong : Z) : Z :=
  if strong s =? MBEDTLS_ENTROPY_SOURCE_STRONG then 1 else have_one_strong.

(** The for loop, [n] iterations before [i] reaches [ctx->source_count].
    When the loop runs to its end, [ret] holds 0 (the value the last
    callback returned) unless the test on [have_one_strong] overwrites it. *)
Fixpoint gather_loop (n : nat) (i : Z) (have_one_strong : Z)
    (ctx : mbedtls_entropy_context) (w : world) (buf : bytes)
    (polls : list poll_event) : option gather_result :=
  match n with
  | O =>
      let ret := if have_one_strong =? 0
                 then MBEDTLS_ERR_ENTROPY_NO_STRONG_SOURCE else 0 in
      Some {| g_ret := ret; g_ctx := ctx; g_world := w;
              g_buf := mbedtls_zeroize buf (Z.to_nat MBEDTLS_ENTROPY_MAX_GATHER);
              g_path := LoopDone; g_polls := polls |}
  | S n' =>
      match source_at ctx i with
      | None => None
      | Some s =>
          let have_one_strong := note_strong s have_one_strong in
          match f_source s with
          | None => None
          | Some f =>
              let '(r, w) := f (p_source s) buf MBEDTLS_ENTROPY_MAX_GATHER w in
              let buf := poll_output r in
              let olen := poll_olen r in
              let polls := polls ++ [poll_event_of i r] in
              if nonzero (poll_ret r) then
                Some {| g_ret := poll_ret r; g_ctx := ctx; g_world := w;
                        g_buf := mbedtls_zeroize buf (Z.to_nat MBEDTLS_ENTROPY_MAX_GATHER);
                        g_path := PollFailed i; g_polls := polls |}
              else if olen >? 0 then
                let '(ret, ctx) := entropy_update ctx (to_uchar i) buf olen in
                if nonzero ret then
                  Some {| g_ret := ret; g_ctx := ctx; g_world := w;
                          g_buf := buf;
                          g_path := UpdateFailed i; g_polls := polls |}
                else
                  gather_loop n' (i + 1) have_one_strong (add_size ctx i olen) w buf polls
              else
                gather_loop n' (i + 1) have_one_strong ctx w buf polls
          end
      end
  end.

(** [scratch] is what the stack holds where [buf] is allocated. *)
Definition entropy_gather_internal (ctx : mbedtls_entropy_context) (w : world)
    (scratch : bytes) : option gather_result :=
  if source_count ctx =? 0 then
    Some {| g_ret := MBEDTLS_ERR_ENTROPY_NO_SOURCES_DEFINED; g_ctx := ctx;
            g_world := w; g_buf := scratch; g_path := NoSources; g_polls := [] |}
  else
    gather_loop (Z.to_nat (source_count ctx)) 0 0 ctx w scratch [].

Definition mbedtls_entropy_gather := entropy_gather_internal.

(** ** mbedtls_entropy_func: extraction *)

(** [done = 1; for (i ...) if (size < threshold) done = 0;] *)
Fixpoint thresholds_done (n : nat) (i : Z) (ctx : mbedtls_entropy_context)
    (done : Z) : option Z :=
  match n with
  | O => Some done
  | S n' =>
      match source_at ctx i with
      | None => None
      | Some s =>
          thresholds_done n' (i + 1) ctx (if size s <? threshold s then 0 else done)
      end
  end.

(** [for (i ...) ctx->source[i].size = 0;] *)
Fixpoint reset_sizes (n : nat) (i : Z) (l : list mbedtls_entropy_source_state)
    : list mbedtls_entropy_source_state :=
  match n with
  | O => l
  | S n' => reset_sizes n' (i + 1) (alter (fun s => set_size s 0) (Z.to_nat i) l)
  end.

(** The do-while loop.  [count] is the C variable; the result is the value
    of [ret] when the loop is left, 0 when it is left through [done]. *)
Fixpoint gather_until_done (fuel : nat) (count : Z)
    (ctx : mbedtls_entropy_context) (w : world) (scratch : bytes)
    : option (Z * mbedtls_entropy_context * world) :=
  match fuel with
  | O => None
  | S fuel' =>
      if count >? ENTROPY_MAX_LOOP then
        Some (MBEDTLS_ERR_ENTROPY_SOURCE_FAILED, ctx, w)
      else
        match entropy_gather_internal ctx w scratch with
        | None => None
        | Some r =>
            if nonzero (g_ret r) then Some (g_ret r, g_ctx r, g_world r)
            else
              match thresholds_done (Z.to_nat (source_count (g_ctx r))) 0 (g_ctx r) 1 with
              | None => None
              | Some done =>
                  if done =? 0
                  then gather_until_done fuel' (count + 1) (g_ctx r) (g_world r) scratch
                  else Some (0, g_ctx r, g_world r)
              end
        end
  end.

Record func_result := {
  f_ret : Z;
  f_ctx : mbedtls_entropy_context;
  f_world : world;
  f_output : bytes;
}.

(** Everything after the do-while loop, up to [exit].  The zeros that
    [memset] puts in [buf] are overwritten by the digest; [buf] is local
    and wiped at [exit], so only [output] carries its content out. *)
Definition reseed_and_output (ctx : mbedtls_entropy_context) (w : world)
    (output : bytes) (len : Z) : func_result :=
  let '(ret, acc, buf) := sha_finish_ret (accumulator ctx) in
  let ctx := set_accumulator ctx acc in
  if nonzero ret then
    {| f_ret := ret; f_ctx := ctx; f_world := w; f_output := output |}
  else
    let acc := sha_free acc in
    let acc := sha_init in
    let '(ret, acc) := sha_starts_ret acc 0 in
    let ctx := set_accumulator ctx acc in
    if nonzero ret then
      {| f_ret := ret; f_ctx := ctx; f_world := w; f_output := output |}
    else
      let '(ret, acc) := sha_update_ret acc (mem_read buf MBEDTLS_ENTROPY_BLOCK_SIZE) in
      let ctx := set_accumulator ctx acc in
      if nonzero ret then
        {| f_ret := ret; f_ctx := ctx; f_world := w; f_output := output |}
      else
        let '(ret, buf) := sha_ret (mem_read buf MBEDTLS_ENTROPY_BLOCK_SIZE) 0 in
        if nonzero ret then
          {| f_ret := ret; f_ctx := ctx; f_world := w; f_output := output |}
        else
          let ctx :=
            set_source ctx
              (reset_sizes (Z.to_nat (source_count ctx)) 0 (source ctx)) in
          {| f_ret := 0; f_ctx := ctx; f_world := w;
             f_output := memcpy output buf len |}.

(** The loop is entered with [count = 0] and leaves at the latest when
    the test [count++ > ENTROPY_MAX_LOOP] fires, at its 258th evaluation. *)
Definition mbedtls_entropy_func (ctx : mbedtls_entropy_context) (w : world)
    (output : bytes) (len : Z) (scratch : bytes) : option func_result :=
  if len >? MBEDTLS_ENTROPY_BLOCK_SIZE then
    Some {| f_ret := MBEDTLS_ERR_ENTROPY_SOURCE_FAILED; f_ctx := ctx;
            f_world := w; f_output := output |}
  else
    match gather_until_done (Z.to_nat (ENTROPY_MAX_LOOP + 2)) 0 ctx w scratch with
    | None => None
    | Some (ret, ctx, w) =>
        if nonzero ret then
          Some {| f_ret := ret; f_ctx := ctx; f_world := w; f_output := output |}
        else Some (reseed_and_output ctx w output len)
    end.

(** ** mbedtls_entropy_init and mbedtls_entropy_free *)

(** The return value of [mbedtls_entropy_add_source] is dropped by
    [mbedtls_entropy_init]. *)
Definition add_source_ignore (f : mbedtls_entropy_f_source_ptr) (p : handle)
    (thr strg : Z) (ctx : option mbedtls_entropy_context)
    : option mbedtls_entropy_context :=
  match ctx with
  | None => None
  | Some ctx => snd <$> mbedtls_entropy_add_source ctx (Some f) p thr strg
  end.

Definition mbedtls_entropy_init : option mbedtls_entropy_context :=
  let ctx :=
    Some {| accumulator_started := 0; accumulator := sha_init; source_count := 0;
            source := replicate (Z.to_nat MBEDTLS_ENTROPY_MAX_SOURCES) zero_source |} in
  if MBEDTLS_NO_DEFAULT_ENTROPY_SOURCES then ctx
  else
    let ctx :=
      add_source_ignore mbedtls_hardclock_poll NULL MBEDTLS_ENTROPY_MIN_HARDCLOCK
        MBEDTLS_ENTROPY_SOURCE_WEAK ctx in
    let ctx :=
      if MBEDTLS_HAVEGE_C
      then add_source_ignore mbedtls_havege_poll havege_data MBEDTLS_ENTROPY_MIN_HAVEGE
             MBEDTLS_ENTROPY_SOURCE_STRONG ctx
      else ctx in
    add_source_ignore mbedtls_hardware_poll NULL MBEDTLS_ENTROPY_MIN_HARDWARE
      MBEDTLS_ENTROPY_SOURCE_STRONG ctx.

Definition mbedtls_entropy_free (ctx : mbedtls_entropy_context)
    : mbedtls_entropy_context :=
  {| accumulator_started := 0; accumulator := sha_free (accumulator ctx);
     source_count := 0;
     source := replicate (length (source ctx)) zero_source |}.

(** ** The calls a client can make on an initialised context *)

Inductive api_call :=
  | AddSource (f : option mbedtls_entropy_f_source_ptr) (p : handle) (thr strg : Z)
  | UpdateManual (data : bytes) (len : Z)
  | Gather (scratch : bytes)
  | Func (output : bytes) (len : Z) (scratch : bytes).

(** The context and the world after a call (return values are dropped). *)
Definition run_call (c : api_call) (ctx : mbedtls_entropy_context) (w : world)
    : option (mbedtls_entropy_context * world) :=
  match c with
  | AddSource f p thr strg =>
      (fun r => (snd r, w)) <$> mbedtls_entropy_add_source ctx f p thr strg
  | UpdateManual data len => Some (snd (mbedtls_entropy_update_manual ctx data len), w)
  | Gather scratch =>
      (fun r => (g_ctx r, g_world r)) <$> mbedtls_entropy_gather ctx w scratch
  | Func output len scratch =>
      (fun r => (f_ctx r, f_world r)) <$> mbedtls_entropy_func ctx w output len scratch
  end.

(** The contexts a client can observe between calls, starting from
    [mbedtls_entropy_init]. *)
Inductive reachable : mbedtls_entropy_context -> world -> Prop :=
  | reach_init ctx w :
      mbedtls_entropy_init = Some ctx -> reachable ctx w
  | reach_call c ctx w ctx' w' :
      reachable ctx w -> run_call c ctx w = Some (ctx', w') -> reachable ctx' w'.

(** ** Notions used to state the properties *)

(** A registry entry without its byte counter. *)
Definition forget_size (s : mbedtls_entropy_source_state) := set_size s 0.

(** Some source with an index in [[i, i + n)] is classified Strong. *)
Definition strong_in (ctx : mbedtls_entropy_context) (i : Z) (n : nat) : Prop :=
  exists j s, i <= j < i + Z.of_nat n /\ source_at ctx j = Some s /\
              strong s = MBEDTLS_ENTROPY_SOURCE_STRONG.

Definition strong_registered (ctx : mbedtls_entropy_context) : Prop :=
  strong_in ctx 0 (Z.to_nat (source_count ctx)).


(** The context and the world after [n] rounds that all return 0. *)
Fixpoint gather_rounds (n : nat) (ctx : mbedtls_entropy_context) (w : world)
    (scratch : bytes) : option (mbedtls_entropy_context * world) :=
  match n with
  | O => Some (ctx, w)
  | S n' =>
      match entropy_gather_internal ctx w scratch with
      | None => None
      | Some r =>
          if nonzero (g_ret r) then None
          else gather_rounds n' (g_ctx r) (g_world r) scratch
      end
  end.

(** The value of [done] after the test of the thresholds. *)
Definition thresholds_met (ctx : mbedtls_entropy_context) : option Z :=
  thresholds_done (Z.to_nat (source_count ctx)) 0 ctx 1.

(** Each of the next [k] rounds returns 0 and leaves [done] at 0. *)
Fixpoint all_stalled (k : nat) (ctx : mbedtls_entropy_context) (w : world)
    (scratch : bytes) : bool :=
  match k with
  | O => true
  | S k' =>
      match entropy_gather_internal ctx w scratch with
      | None => false
      | Some r =>
          if nonzero (g_ret r) then false
          else
            match thresholds_met (g_ctx r) with
            | Some done =>
                (done =? 0) && all_stalled k' (g_ctx r) (g_world r) scratch
            | None => false
            end
      end
  end.

End Entropy.

(** ** The error surface of the specification *)

(** The failures the specification tells apart. *)
Inductive entropy_error :=
  | MaxSourcesExceeded
  | NoSourcesDefined
  | NoStrongSource
  | SourceFailed
  | LoopExceeded
  | RequestTooLarge
  | HashFailure.

(** The failure a return code of entropy.c stands for, going by the name
    of the macro; the file has these four codes and no others. *)
Definition error_of_code `{EntropyH} (ret : Z) : option entropy_error :=
  if ret =? MBEDTLS_ERR_ENTROPY_SOURCE_FAILED then Some SourceFailed
  else if ret =? MBEDTLS_ERR_ENTROPY_MAX_SOURCES then Some MaxSourcesExceeded
  else if ret =? MBEDTLS_ERR_ENTROPY_NO_SOURCES_DEFINED then Some NoSourcesDefined
  else if ret =? MBEDTLS_ERR_ENTROPY_NO_STRONG_SOURCE then Some NoStrongSource
  else None.

(** ** A sample build and sample sources *)

Module Sample.

(** A configuration with the SHA-256 accumulator. *)
Definition sample_h : EntropyH :=
  {| MBEDTLS_ENTROPY_BLOCK_SIZE := 32;
     MBEDTLS_ENTROPY_MAX_SOURCES := 20;
     MBEDTLS_ENTROPY_MAX_GATHER := 8;
     MBEDTLS_ENTROPY_SOURCE_MANUAL := 20;
     MBEDTLS_ENTROPY_SOURCE_STRONG := 1;
     MBEDTLS_ENTROPY_SOURCE_WEAK := 0;
     MBEDTLS_ERR_ENTROPY_SOURCE_FAILED := -60;
     MBEDTLS_ERR_ENTROPY_MAX_SOURCES := -62;
     MBEDTLS_ERR_ENTROPY_NO_SOURCES_DEFINED := -64;
     MBEDTLS_ERR_ENTROPY_NO_STRONG_SOURCE := -61;
     BLOCK_SIZE_range := ltac:(lia);
     MAX_SOURCES_nonneg := ltac:(lia);
     MAX_GATHER_nonneg := ltac:(lia);
     STRONG_not_WEAK := ltac:(lia);
     ERR_SOURCE_FAILED_nonzero := ltac:(lia);
     ERR_MAX_SOURCES_nonzero := ltac:(lia);
     ERR_NO_SOURCES_DEFINED_nonzero := ltac:(lia);
     ERR_NO_STRONG_SOURCE_nonzero := ltac:(lia);
     ERR_codes_distinct := ltac:(lia) |}.

(** A stand-in digest: 32 bytes derived from the sum of the message. *)
Definition toy_digest (m : bytes) : bytes :=
  map (fun i => (foldr Z.add 0 m + 7 * Z.of_nat i + 1) mod 256) (seq 0 32).

(** A hash whose context is the message absorbed so far; it never fails. *)
Definition toy_sha : Sha :=
  {| sha_context := bytes;
     sha_init := [];
     sha_free := fun _ => [];
     sha_starts_ret := fun _ _ => (0, []);
     sha_update_ret := fun c d => (0, c ++ d);
     sha_finish_ret := fun c => (0, c, toy_digest c);
     sha_ret := fun d _ => (0, toy_digest d) |}.

(** The same hash behind a driver that refuses to start (status -1). *)
Definition failing_sha : Sha :=
  {| sha_context := bytes;
     sha_init := [];
     sha_free := fun _ => [];
     sha_starts_ret := fun c _ => (-1, c);
     sha_update_ret := fun c d => (0, c ++ d);
     sha_finish_ret := fun c => (0, c, toy_digest c);
     sha_ret := fun d _ => (0, toy_digest d) |}.

(** The world counts the callbacks made so far. *)
Definition sample_platform : Platform :=
  {| world := Z; handle := Z; NULL := 0 |}.

Definition poll_fn : Type := @mbedtls_entropy_f_source_ptr sample_platform.

(** Fills four bytes on every call. *)
Definition four_bytes_poll : poll_fn :=
  fun _ buf _ w =>
    ({| poll_ret := 0; poll_output := [170; 187; 204; 221] ++ drop 4 buf;
        poll_olen := 4 |}, w + 1).

(** Succeeds on every call and never has anything new. *)
Definition stalled_poll : poll_fn :=
  fun _ buf _ w => ({| poll_ret := 0; poll_output := buf; poll_olen := 0 |}, w + 1).


(** No default sources: the registry is filled by the calls below. *)
Definition sample_poll : @EntropyPoll sample_platform :=
  {| MBEDTLS_NO_DEFAULT_ENTROPY_SOURCES := true;
     MBEDTLS_HAVEGE_C := false;
     mbedtls_hardclock_poll := stalled_poll;
     mbedtls_havege_poll := stalled_poll;
     mbedtls_hardware_poll := four_bytes_poll;
     havege_data := 0;
     MBEDTLS_ENTROPY_MIN_HARDCLOCK := 4;
     MBEDTLS_ENTROPY_MIN_HAVEGE := 32;
     MBEDTLS_ENTROPY_MIN_HARDWARE := 32 |}.

Definition context (sha : Sha) : Type :=
  @mbedtls_entropy_context sha sample_platform.

(** [mbedtls_entropy_init] followed by one [mbedtls_entropy_add_source]
    per entry of [l] (callback, threshold, strength). *)
Definition add (sha : Sha) (ctx : option (context sha)) (e : poll_fn * Z * Z)
    : option (context sha) :=
  let '(f, thr, strg) := e in
  ctx ≫= fun ctx =>
    snd <$> mbedtls_entropy_add_source (EH := sample_h) (PF := sample_platform)
              ctx (Some f) (0 : Z) thr strg.

Definition registry (sha : Sha) (l : list (poll_fn * Z * Z)) : option (context sha) :=
  foldl (add sha)
    (mbedtls_entropy_init (EH := sample_h) (SH := sha) (EP := sample_poll)) l.

Definition scratch0 : bytes := [1; 2; 3; 4; 5; 6; 7; 8].

Definition output0 : bytes := replicate 40 9.

(** One Strong source that delivers four bytes per round. *)
Definition one_strong := [(four_bytes_poll, 8, 1)].

(** One Weak source that delivers four bytes per round. *)
Definition weak_only := [(four_bytes_poll, 4, 0)].

(** One Strong source that never has anything new. *)
Definition strong_but_silent := [(stalled_poll, 0, 1)].

(** A Strong source that delivers, and a Weak one that is expected to
    deliver a byte and never does. *)
Definition one_stalled := [(four_bytes_poll, 4, 1); (stalled_poll, 1, 0)].


(** As many sources as the registry holds. *)
Definition full := replicate 20 (four_bytes_poll, 4, 1).

(** The context that [registry] builds. *)
Definition built (sha : Sha) (l : list (poll_fn * Z * Z)) : context sha :=
  default {| accumulator_started := 0; accumulator := sha_init;
             source_count := 0; source := [] |}
          (registry sha l).

(** A context with one Strong source whose accumulator has been started
    by a manual update. *)
Definition started_context : context toy_sha :=
  snd (mbedtls_entropy_update_manual (EH := sample_h) (built toy_sha one_strong)
         [1; 2; 3] 3).

(** One round, and one extraction, in the sample build. *)
Abbreviation gather sha ctx :=
  (entropy_gather_internal (EH := sample_h) (SH := sha) (PF := sample_platform)
     ctx (0 : Z) scratch0).

Abbreviation extract sha ctx len :=
  (mbedtls_entropy_func (EH := sample_h) (SH := sha) (PF := sample_platform)
     ctx (0 : Z) output0 len scratch0).

End Sample.

(** * The rest of entropy.c, and the macros of asn1.h *)

(** [memcmp(a, b, n)]: zero when the first [n] bytes agree, otherwise the
    difference of the first two bytes that differ (only its sign is fixed
    by the C standard).  Reading past the end of an object is undefined in
    C; the model stops there. *)
Fixpoint memcmp (a b : bytes) (n : nat) : Z :=
  match n, a, b with
  | S n', x :: a', y :: b' => if x =? y then memcmp a' b' n' else x - y
  | _, _, _ => 0
  end.

(** The value of a C comparison [x != 0]. *)
Definition ne0 (x : Z) : Z := if x =? 0 then 0 else 1.

(** ** asn1.h *)

Module Asn1.

Definition TTLS_ASN1_TAG_CLASS_MASK : Z := 0xC0.
Definition TTLS_ASN1_TAG_PC_MASK : Z := 0x20.
Definition TTLS_ASN1_TAG_VALUE_MASK : Z := 0x1F.

Record ttls_asn1_buf := {
  tag : Z;
  len : Z;
  p : bytes;
}.

(** [TTLS_OID_SIZE(x)]: [x] is a string literal, given here by its bytes
    without the trailing NUL that [sizeof] counts. *)
Definition TTLS_OID_SIZE (x : bytes) : Z := (Z.of_nat (length x) + 1) - 1.

(** [TTLS_OID_CMP(oid_str, oid_buf)], as the [int] 0 or 1 of the C
    expression. *)
Definition TTLS_OID_CMP (oid_str : bytes) (oid_buf : ttls_asn1_buf) : Z :=
  if negb (TTLS_OID_SIZE oid_str =? len oid_buf) then 1
  else ne0 (memcmp oid_str (p oid_buf) (Z.to_nat (len oid_buf))).

End Asn1.

(** ** The self tests of entropy.c *)

(** [mbedtls_entropy_source_self_test_check_bits]: the loop, then the
    test on [set] and [unset]. *)
Fixpoint check_bits_loop (buf : bytes) (n : nat) (set unset : Z) : Z * Z :=
  match n, buf with
  | S n', b :: buf' => check_bits_loop buf' n' (Z.land set b) (Z.lor unset b)
  | _, _ => (set, unset)
  end.

Definition mbedtls_entropy_source_self_test_check_bits (buf : bytes) (buf_len : Z) : Z :=
  let '(set, unset) := check_bits_loop buf (Z.to_nat buf_len) 0xFF 0x00 in
  if (set =? 0xFF) || (unset =? 0x00) then 1 else 0.

(** [mbedtls_hardware_poll] as the self test calls it: without resetting
    the variable behind [olen], whose value on entry is the first
    argument. *)
Class HardwarePoll `{Platform} := {
  mbedtls_hardware_poll_from : Z -> mbedtls_entropy_f_source_ptr;
}.

Section SelfTest.
Context {EH : EntropyH} {SH : Sha} {PF : Platform} {EP : EntropyPoll}
        {HP : HardwarePoll}.

(** [entropy_dummy_source] *)
Definition entropy_dummy_source : mbedtls_entropy_f_source_ptr :=
  fun _ output len w =>
    ({| poll_ret := 0;
        poll_output := replicate (Z.to_nat len) 0x2a ++ drop (Z.to_nat len) output;
        poll_olen := len |}, w).

(** What [mbedtls_entropy_source_self_test_gather] leaves behind: its
    return value, the buffer, the value of [entropy_len], the world and
    the calls of the hardware callback (indexed by the offset they were
    asked to write at). *)
Record self_test_gather_result := {
  stg_ret : Z;
  stg_buf : bytes;
  stg_entropy_len : Z;
  stg_world : world;
  stg_polls : list poll_event;
}.

(** The while loop, with [attempts] iterations left, followed by the
    test after it.  When the loop is left without a failing callback,
    [ret] is 0. *)
Fixpoint self_test_gather_loop (attempts : nat) (buf : bytes)
    (buf_len entropy_len olen : Z) (w : world) (polls : list poll_event)
    : self_test_gather_result :=
  let after_loop :=
    {| stg_ret := if entropy_len <? buf_len then 1 else 0;
       stg_buf := buf; stg_entropy_len := entropy_len; stg_world := w;
       stg_polls := polls |} in
  match attempts with
  | O => after_loop
  | S attempts' =>
      if entropy_len <? buf_len then
        let '(r, w) :=
          mbedtls_hardware_poll_from olen NULL (drop (Z.to_nat entropy_len) buf)
            (buf_len - entropy_len) w in
        let buf := take (Z.to_nat entropy_len) buf ++ poll_output r in
        let polls := polls ++ [poll_event_of entropy_len r] in
        if nonzero (poll_ret r) then
          {| stg_ret := poll_ret r; stg_buf := buf; stg_entropy_len := entropy_len;
             stg_world := w; stg_polls := polls |}
        else
          self_test_gather_loop attempts' buf buf_len
            (size_t_add entropy_len (poll_olen r)) (poll_olen r) w polls
      else after_loop
  end.

Definition mbedtls_entropy_source_self_test_gather (buf : bytes) (buf_len : Z)
    (w : world) : self_test_gather_result :=
  self_test_gather_loop (Z.to_nat buf_len) buf buf_len 0 0 w [].

(** [2 * sizeof(unsigned long long int)] *)
Definition SELF_TEST_SAMPLE : Z := 2 * 8.

(** [mbedtls_entropy_source_self_test].  The text printed when [verbose]
    is nonzero is not part of the model. *)
Definition mbedtls_entropy_source_self_test (verbose : Z) (w : world) : Z * world :=
  let buf0 := replicate (Z.to_nat SELF_TEST_SAMPLE) 0 in
  let buf1 := replicate (Z.to_nat SELF_TEST_SAMPLE) 0 in
  let g0 := mbedtls_entropy_source_self_test_gather buf0 SELF_TEST_SAMPLE w in
  if nonzero (stg_ret g0) then (ne0 (stg_ret g0), stg_world g0)
  else
    let g1 :=
      mbedtls_entropy_source_self_test_gather buf1 SELF_TEST_SAMPLE (stg_world g0) in
    let w := stg_world g1 in
    if nonzero (stg_ret g1) then (ne0 (stg_ret g1), w)
    else
      let ret := mbedtls_entropy_source_self_test_check_bits (stg_buf g0) SELF_TEST_SAMPLE in
      if nonzero ret then (ne0 ret, w)
      else
        let ret := mbedtls_entropy_source_self_test_check_bits (stg_buf g1) SELF_TEST_SAMPLE in
        if nonzero ret then (ne0 ret, w)
        else
          let ret :=
            if memcmp (stg_buf g0) (stg_buf g1) (Z.to_nat SELF_TEST_SAMPLE) =? 0
            then 1 else 0 in
          (ne0 ret, w).

(** The loop of [mbedtls_entropy_self_test] that extracts eight times and
    ORs the outputs into [acc]; the result is [ret], [buf], [acc], the
    context and the world when the loop is left. *)
Fixpoint extract_and_or (n : nat) (ctx : mbedtls_entropy_context) (w : world)
    (buf acc : bytes) (scratch : bytes)
    : option (Z * bytes * bytes * mbedtls_entropy_context * world) :=
  match n with
  | O => Some (0, buf, acc, ctx, w)
  | S n' =>
      match mbedtls_entropy_func ctx w buf MBEDTLS_ENTROPY_BLOCK_SIZE scratch with
      | None => None
      | Some r =>
          if nonzero (f_ret r) then Some (f_ret r, f_output r, acc, f_ctx r, f_world r)
          else
            extract_and_or n' (f_ctx r) (f_world r) (f_output r)
              (zip_with Z.lor acc (f_output r)) scratch
      end
  end.

(** [for (j ...) if (acc[j] == 0) { ret = 1; goto cleanup; }] *)
Definition some_byte_zero (acc : bytes) (n : Z) : bool :=
  existsb (fun b => b =? 0) (mem_read acc n).

(** [mbedtls_entropy_self_test].  The context is local to the function
    and freed at [cleanup], so only the return value and the world are
    left.  The text printed when [verbose] is nonzero is not modelled. *)
Definition mbedtls_entropy_self_test (verbose : Z) (w : world) (scratch : bytes)
    : option (Z * world) :=
  let buf := replicate (Z.to_nat MBEDTLS_ENTROPY_BLOCK_SIZE) 0 in
  let acc := replicate (Z.to_nat MBEDTLS_ENTROPY_BLOCK_SIZE) 0 in
  match mbedtls_entropy_init with
  | None => None
  | Some ctx =>
      match mbedtls_entropy_gather ctx w scratch with
      | None => None
      | Some g =>
          if nonzero (g_ret g) then Some (ne0 (g_ret g), g_world g)
          else
            let w := g_world g in
            match mbedtls_entropy_add_source (g_ctx g) (Some entropy_dummy_source)
                    NULL 16 MBEDTLS_ENTROPY_SOURCE_WEAK with
            | None => None
            | Some (ret, ctx) =>
                if nonzero ret then Some (ne0 ret, w)
                else
                  let '(ret, ctx) :=
                    mbedtls_entropy_update_manual ctx buf MBEDTLS_ENTROPY_BLOCK_SIZE in
                  if nonzero ret then Some (ne0 ret, w)
                  else
                    match extract_and_or 8 ctx w buf acc scratch with
                    | None => None
                    | Some (ret, buf, acc, ctx, w) =>
                        if nonzero ret then Some (ne0 ret, w)
                        else if some_byte_zero acc MBEDTLS_ENTROPY_BLOCK_SIZE
                        then Some (ne0 1, w)
                        else
                          let '(ret, w) := mbedtls_entropy_source_self_test 0 w in
                          Some (ne0 ret, w)
                    end
            end
      end
  end.

(** ** Further notions used to state properties *)

(** Every registered source has a callback, and the count is not negative. *)
Definition callbacks_registered (ctx : mbedtls_entropy_context) : Prop :=
  0 <= source_count ctx /\
  forall i, 0 <= i < source_count ctx ->
    exists s f, source_at ctx i = Some s /\ f_source s = Some f.

(** The array has its MBEDTLS_ENTROPY_MAX_SOURCES entries, the count is
    within it, and every registered source has a callback. *)
Definition well_formed (ctx : mbedtls_entropy_context) : Prop :=
  callbacks_registered ctx /\
  source_count ctx <= MBEDTLS_ENTROPY_MAX_SOURCES /\
  length (source ctx) = Z.to_nat MBEDTLS_ENTROPY_MAX_SOURCES.

(** A context in which [k] registrations have been attempted since it
    was set up, and nothing else has happened. *)
Definition fresh_with (k : Z) (ctx : mbedtls_entropy_context) : Prop :=
  well_formed ctx /\
  source_count ctx = Z.min MBEDTLS_ENTROPY_MAX_SOURCES k /\
  accumulator_started ctx = 0 /\
  accumulator ctx = sha_init /\
  Forall (fun s => size s = 0) (source ctx).

(** The array of a reachable context has its full length. *)
Definition array_ok (ctx : mbedtls_entropy_context) : Prop :=
  0 <= source_count ctx <= MBEDTLS_ENTROPY_MAX_SOURCES /\
  length (source ctx) = Z.to_nat MBEDTLS_ENTROPY_MAX_SOURCES.

(** The number of sources that [mbedtls_entropy_init] tries to register. *)
Definition default_source_count : Z :=
  if MBEDTLS_NO_DEFAULT_ENTROPY_SOURCES then 0
  else if MBEDTLS_HAVEGE_C then 3 else 2.

(** The entries that [mbedtls_entropy_init] asks to register, in the order
    of its calls of [mbedtls_entropy_add_source]: the clock, the HAVEGE
    source when it is compiled in, and the hardware source. *)
Definition default_sources : list mbedtls_entropy_source_state :=
  if MBEDTLS_NO_DEFAULT_ENTROPY_SOURCES then []
  else
    [{| f_source := Some mbedtls_hardclock_poll; p_source := NULL; size := 0;
        threshold := MBEDTLS_ENTROPY_MIN_HARDCLOCK;
        strong := MBEDTLS_ENTROPY_SOURCE_WEAK |}]
    ++ (if MBEDTLS_HAVEGE_C
        then [{| f_source := Some mbedtls_havege_poll; p_source := havege_data;
                 size := 0; threshold := MBEDTLS_ENTROPY_MIN_HAVEGE;
                 strong := MBEDTLS_ENTROPY_SOURCE_STRONG |}]
        else [])
    ++ [{| f_source := Some mbedtls_hardware_poll; p_source := NULL; size := 0;
           threshold := MBEDTLS_ENTROPY_MIN_HARDWARE;
           strong := MBEDTLS_ENTROPY_SOURCE_STRONG |}].

End SelfTest.

(** ** Sample hardware callbacks for the self tests *)

Module SampleSelfTest.
Import Sample.

(** Writes up to five fresh bytes per call, derived from the call count. *)
Definition counting_poll : poll_fn :=
  fun _ buf len w =>
    let m := Z.to_nat (Z.min len 5) in
    ({| poll_ret := 0;
        poll_output := map (fun k => (17 * w + Z.of_nat k + 1) mod 256) (seq 0 m)
                       ++ drop m buf;
        poll_olen := Z.min len 5 |}, w + 1).

Definition counting_hw : @HardwarePoll sample_platform :=
  {| mbedtls_hardware_poll_from := fun _ => counting_poll |}.

(** Fills the whole request with the same byte on every call. *)
Definition constant_poll : poll_fn :=
  fun _ buf len w =>
    ({| poll_ret := 0;
        poll_output := replicate (Z.to_nat len) 90 ++ drop (Z.to_nat len) buf;
        poll_olen := len |}, w + 1).

Definition constant_hw : @HardwarePoll sample_platform :=
  {| mbedtls_hardware_poll_from := fun _ => constant_poll |}.




(** Fails on the third call. *)
Definition third_call_fails : poll_fn :=
  fun h buf len w =>
    if w =? 2
    then ({| poll_ret := -7; poll_output := buf; poll_olen := 0 |}, w + 1)
    else counting_poll h buf len w.

Definition failing_hw : @HardwarePoll sample_platform :=
  {| mbedtls_hardware_poll_from := fun _ => third_call_fails |}.

(** A build with the default sources: a clock that never has anything
    new (Weak) and a hardware source that delivers (Strong). *)
Definition default_poll : @EntropyPoll sample_platform :=
  {| MBEDTLS_NO_DEFAULT_ENTROPY_SOURCES := false;
     MBEDTLS_HAVEGE_C := false;
     mbedtls_hardclock_poll := stalled_poll;
     mbedtls_havege_poll := stalled_poll;
     mbedtls_hardware_poll := four_bytes_poll;
     havege_data := 0;
     MBEDTLS_ENTROPY_MIN_HARDCLOCK := 0;
     MBEDTLS_ENTROPY_MIN_HAVEGE := 32;
     MBEDTLS_ENTROPY_MIN_HARDWARE := 8 |}.

(** The OID of an RSA key (PKCS #1 rsaEncryption), as a reference string
    and as a parsed buffer. *)
Definition oid_rsa : bytes := [42; 134; 72; 134; 247; 13; 1; 1; 1].

Definition oid_rsa_buf : Asn1.ttls_asn1_buf :=
  {| Asn1.tag := 6; Asn1.len := 9; Asn1.p := oid_rsa |}.

End SampleSelfTest.

(** * Properties *)

Section Properties.
Context {EH : EntropyH} {SH : Sha} {PF : Platform} {EP : EntropyPoll}.

Implicit Types (ctx : mbedtls_entropy_context) (w : world).

Lemma nonzero_true x : nonzero x = true <-> x <> 0.
Proof. unfold nonzero. destruct (Z.eqb_spec x 0); simpl; split; congruence. Qed.

Lemma nonzero_false x : nonzero x = false <-> x = 0.
Proof. unfold nonzero. destruct (Z.eqb_spec x 0); simpl; split; congruence. Qed.

(** ** Reading the return codes *)

Lemma error_of_code_values :
  error_of_code MBEDTLS_ERR_ENTROPY_SOURCE_FAILED = Some SourceFailed /\
  error_of_code MBEDTLS_ERR_ENTROPY_MAX_SOURCES = Some MaxSourcesExceeded /\
  error_of_code MBEDTLS_ERR_ENTROPY_NO_SOURCES_DEFINED = Some NoSourcesDefined /\
  error_of_code MBEDTLS_ERR_ENTROPY_NO_STRONG_SOURCE = Some NoStrongSource.
Proof.
  pose proof ERR_codes_distinct as Hd. unfold error_of_code.
  repeat split;
    repeat match goal with
    | |- context [?a =? ?b] => destruct (Z.eqb_spec a b)
    end; try reflexivity; lia.
Qed.

(** ** Memory helpers *)

Lemma mbedtls_zeroize_take v n :
  take n (mbedtls_zeroize v n) = replicate (min n (length v)) 0.
Proof.
  revert v. induction n as [|n IH]; intros [|b v]; simpl; try reflexivity.
  now rewrite IH.
Qed.

Lemma mbedtls_zeroize_wipes v n : zeroized (take n (mbedtls_zeroize v n)).
Proof. rewrite mbedtls_zeroize_take. apply Forall_replicate. reflexivity. Qed.

(** ** The mix step leaves the registry alone and never clears the flag *)

Ltac unfold_update :=
  unfold entropy_update; repeat case_match; simpl.

Lemma entropy_update_source ctx tag data len :
  source (snd (entropy_update ctx tag data len)) = source ctx.
Proof. unfold_update; reflexivity. Qed.

Lemma entropy_update_source_count ctx tag data len :
  source_count (snd (entropy_update ctx tag data len)) = source_count ctx.
Proof. unfold_update; reflexivity. Qed.

Lemma entropy_update_started ctx tag data len :
  let ctx' := snd (entropy_update ctx tag data len) in
  accumulator_started ctx' = accumulator_started ctx \/
  accumulator_started ctx' = 1.
Proof. unfold_update; auto. Qed.

Lemma entropy_update_ok_started ctx tag data len :
  fst (entropy_update ctx tag data len) = 0 ->
  accumulator_started (snd (entropy_update ctx tag data len)) = 1.
Proof.
  unfold_update; intros Hret; simplify_eq/=; try reflexivity;
    repeat match goal with
    | Hnz : nonzero _ = true |- _ => apply nonzero_true in Hnz
    | Hnz : _ && _ = true |- _ => apply andb_true_iff in Hnz as [? ?]
    end; congruence.
Qed.

(** ** Reading and updating [ctx->source] *)

Lemma source_at_add_size ctx i olen j :
  0 <= i ->
  source_at (add_size ctx i olen) j =
    if decide (j = i)
    then (fun s => set_size s (size_t_add (size s) olen)) <$> source_at ctx j
    else source_at ctx j.
Proof.
  intros Hi. unfold source_at, add_size; simpl.
  destruct (Z.ltb_spec j 0) as [Hj|Hj]; case_decide; subst; try reflexivity; try lia.
  - apply list_lookup_alter_eq.
  - apply list_lookup_alter_ne. lia.
Qed.

Lemma add_size_forget ctx i olen :
  forget_size <$> source (add_size ctx i olen) = forget_size <$> source ctx.
Proof.
  unfold add_size; simpl. apply list_eq; intros j.
  rewrite !list_lookup_fmap.
  destruct (decide (Z.to_nat i = j)) as [Heq|Hne].
  - subst j. rewrite list_lookup_alter_eq.
    destruct (source ctx !! Z.to_nat i); reflexivity.
  - now rewrite list_lookup_alter_ne.
Qed.

Lemma forget_size_lookup ctx ctx' j s :
  forget_size <$> source ctx' = forget_size <$> source ctx ->
  source_at ctx j = Some s ->
  exists s', source_at ctx' j = Some s' /\ forget_size s' = forget_size s.
Proof.
  unfold source_at. intros Heq Hs. destruct (j <? 0); [discriminate|].
  assert (Hj : (forget_size <$> source ctx') !! Z.to_nat j = Some (forget_size s)).
  { rewrite Heq, list_lookup_fmap, Hs. reflexivity. }
  rewrite list_lookup_fmap in Hj.
  destruct (source ctx' !! Z.to_nat j) as [s'|]; simpl in Hj; [|discriminate].
  exists s'. split; congruence.
Qed.

(** ** An induction principle for the loop of a round *)

Section GatherLoopElim.
Variable Q : nat -> Z -> Z -> mbedtls_entropy_context -> world -> bytes ->
             list poll_event -> gather_result -> Prop.

Hypothesis at_end : forall i hs ctx w buf polls,
  Q 0%nat i hs ctx w buf polls
    {| g_ret := if hs =? 0 then MBEDTLS_ERR_ENTROPY_NO_STRONG_SOURCE else 0;
       g_ctx := ctx; g_world := w;
       g_buf := mbedtls_zeroize buf (Z.to_nat MBEDTLS_ENTROPY_MAX_GATHER);
       g_path := LoopDone; g_polls := polls |}.

Hypothesis poll_failed : forall n i hs ctx w buf polls s f r w',
  source_at ctx i = Some s -> f_source s = Some f ->
  f (p_source s) buf MBEDTLS_ENTROPY_MAX_GATHER w = (r, w') ->
  poll_ret r <> 0 ->
  Q (S n) i hs ctx w buf polls
    {| g_ret := poll_ret r; g_ctx := ctx; g_world := w';
       g_buf := mbedtls_zeroize (poll_output r) (Z.to_nat MBEDTLS_ENTROPY_MAX_GATHER);
       g_path := PollFailed i; g_polls := polls ++ [poll_event_of i r] |}.

Hypothesis update_failed : forall n i hs ctx w buf polls s f r w' ret ctx',
  source_at ctx i = Some s -> f_source s = Some f ->
  f (p_source s) buf MBEDTLS_ENTROPY_MAX_GATHER w = (r, w') ->
  poll_ret r = 0 -> 0 < poll_olen r ->
  entropy_update ctx (to_uchar i) (poll_output r) (poll_olen r) = (ret, ctx') ->
  ret <> 0 ->
  Q (S n) i hs ctx w buf polls
    {| g_ret := ret; g_ctx := ctx'; g_world := w'; g_buf := poll_output r;
       g_path := UpdateFailed i; g_polls := polls ++ [poll_event_of i r] |}.

Hypothesis mixed : forall n i hs ctx w buf polls s f r w' ctx' res,
  source_at ctx i = Some s -> f_source s = Some f ->
  f (p_source s) buf MBEDTLS_ENTROPY_MAX_GATHER w = (r, w') ->
  poll_ret r = 0 -> 0 < poll_olen r ->
  entropy_update ctx (to_uchar i) (poll_output r) (poll_olen r) = (0, ctx') ->
  Q n (i + 1) (note_strong s hs) (add_size ctx' i (poll_olen r)) w' (poll_output r)
    (polls ++ [poll_event_of i r]) res ->
  Q (S n) i hs ctx w buf polls res.

Hypothesis nothing_new : forall n i hs ctx w buf polls s f r w' res,
  source_at ctx i = Some s -> f_source s = Some f ->
  f (p_source s) buf MBEDTLS_ENTROPY_MAX_GATHER w = (r, w') ->
  poll_ret r = 0 -> poll_olen r <= 0 ->
  Q n (i + 1) (note_strong s hs) ctx w' (poll_output r)
    (polls ++ [poll_event_of i r]) res ->
  Q (S n) i hs ctx w buf polls res.

Lemma gather_loop_elim n i hs ctx w buf polls res :
  gather_loop n i hs ctx w buf polls = Some res -> Q n i hs ctx w buf polls res.
Proof.
  revert i hs ctx w buf polls.
  induction n as [|n IH]; intros i hs ctx w buf polls; simpl.
  - intros [= <-]. apply at_end.
  - destruct (source_at ctx i) as [s|] eqn:Hs; [|discriminate].
    destruct (f_source s) as [f|] eqn:Hf; [|discriminate].
    destruct (f (p_source s) buf MBEDTLS_ENTROPY_MAX_GATHER w) as [r w'] eqn:Hcall.
    destruct (nonzero (poll_ret r)) eqn:Hret.
    { intros [= <-]. apply nonzero_true in Hret. eapply poll_failed; eauto. }
    apply nonzero_false in Hret.
    destruct (Z.gtb_spec (poll_olen r) 0) as [Holen|Holen].
    + destruct (entropy_update ctx (to_uchar i) (poll_output r) (poll_olen r))
        as [ret ctx'] eqn:Hupd.
      destruct (nonzero ret) eqn:Hnz.
      * intros [= <-]. apply nonzero_true in Hnz. eapply update_failed; eauto.
      * apply nonzero_false in Hnz; subst ret. intros Hloop.
        eapply mixed; eauto.
    + intros Hloop. eapply nothing_new; eauto.
Qed.

End GatherLoopElim.

(** ** What a round preserves *)

Ltac loop_induction :=
  match goal with
  | |- gather_loop ?n ?i ?hs ?ctx ?w ?buf ?polls = Some ?res -> _ =>
      let Hloop := fresh "Hloop" in
      intros Hloop; pattern n, i, hs, ctx, w, buf, polls, res;
      eapply gather_loop_elim; [ .. | exact Hloop ]; clear;
      cbn [g_ret g_ctx g_world g_buf g_path g_polls]
  end.

Lemma entropy_update_eq ctx tag data len ret ctx' :
  entropy_update ctx tag data len = (ret, ctx') ->
  source ctx' = source ctx /\ source_count ctx' = source_count ctx /\
  (accumulator_started ctx' = accumulator_started ctx \/ accumulator_started ctx' = 1) /\
  (ret = 0 -> accumulator_started ctx' = 1).
Proof.
  intros Hupd.
  pose proof (entropy_update_source ctx tag data len).
  pose proof (entropy_update_source_count ctx tag data len).
  pose proof (entropy_update_started ctx tag data len).
  pose proof (entropy_update_ok_started ctx tag data len).
  rewrite Hupd in *. simpl in *. auto.
Qed.

Lemma gather_loop_frame n i hs ctx w buf polls res :
  gather_loop n i hs ctx w buf polls = Some res ->
  source_count (g_ctx res) = source_count ctx /\
  forget_size <$> source (g_ctx res) = forget_size <$> source ctx /\
  (accumulator_started ctx <> 0 -> accumulator_started (g_ctx res) <> 0).
Proof.
  loop_induction.
  - auto.
  - auto.
  - intros n i hs ctx w buf polls s f r w' ret ctx' _ _ _ _ _ Hupd _.
    apply entropy_update_eq in Hupd as (-> & -> & [-> | ->] & _); auto with lia.
  - intros n i hs ctx w buf polls s f r w' ctx' res _ _ _ _ _ Hupd (Hc & Hf & Hs).
    apply entropy_update_eq in Hupd as (Hsrc & Hcnt & Hst & _).
    rewrite Hc, Hf, add_size_forget, Hsrc. cbn [add_size set_source source_count].
    rewrite Hcnt. repeat split; try reflexivity.
    intros Hnz. apply Hs. cbn. destruct Hst as [-> | ->]; auto with lia.
  - auto.
Qed.

(** The exit taken tells whether the round succeeded. *)
Lemma gather_loop_ret n i hs ctx w buf polls res :
  gather_loop n i hs ctx w buf polls = Some res ->
  match g_path res with
  | LoopDone => g_ret res = 0 \/ g_ret res = MBEDTLS_ERR_ENTROPY_NO_STRONG_SOURCE
  | PollFailed _ | UpdateFailed _ => g_ret res <> 0
  | NoSources => False
  end.
Proof.
  loop_induction; auto.
  intros _ hs _ _ _ _. destruct (hs =? 0); auto.
Qed.

(** The local buffer when the round returns: wiped at [cleanup], and
    still holding what the last callback wrote when the round leaves
    through the [return] that follows a failed mix step. *)
Lemma gather_loop_buf n i hs ctx w buf polls res :
  gather_loop n i hs ctx w buf polls = Some res ->
  match g_path res with
  | LoopDone | PollFailed _ =>
      zeroized (take (Z.to_nat MBEDTLS_ENTROPY_MAX_GATHER) (g_buf res))
  | UpdateFailed k =>
      exists e, last (g_polls res) = Some e /\ ev_index e = k /\ ev_ret e = 0 /\
                0 < ev_olen e /\ g_buf res = ev_output e
  | NoSources => False
  end.
Proof.
  loop_induction; eauto using mbedtls_zeroize_wipes.
  intros n i hs ctx w buf polls s f r w' ret ctx' _ _ _ Hret Holen _ _.
  exists (poll_event_of i r). rewrite last_snoc. simpl. auto.
Qed.

(** A round that runs to the end of its loop has called the callback of
    every source from [i] on, once each and in order, and each returned 0. *)
Lemma gather_loop_done n i hs ctx w buf polls res :
  gather_loop n i hs ctx w buf polls = Some res ->
  g_path res = LoopDone ->
  exists evs, g_polls res = polls ++ evs /\
              ev_index <$> evs = seqZ i (Z.of_nat n) /\
              Forall (fun e => ev_ret e = 0) evs.
Proof.
  loop_induction; try discriminate.
  - intros i _ _ _ _ polls _. exists []. rewrite app_nil_r. repeat constructor.
  - intros n i hs ctx w buf polls s f r w' ctx' res _ _ _ Hret _ _ IH Hpath.
    destruct (IH Hpath) as (evs & Hpolls & Hidx & Hall).
    exists (poll_event_of i r :: evs). rewrite Hpolls, <- app_assoc.
    split; [reflexivity|]. split; [|constructor; assumption].
    rewrite seqZ_cons by lia. rewrite fmap_cons, Hidx. simpl.
    f_equal. f_equal; lia.
  - intros n i hs ctx w buf polls s f r w' res _ _ _ Hret _ IH Hpath.
    destruct (IH Hpath) as (evs & Hpolls & Hidx & Hall).
    exists (poll_event_of i r :: evs). rewrite Hpolls, <- app_assoc.
    split; [reflexivity|]. split; [|constructor; assumption].
    rewrite seqZ_cons by lia. rewrite fmap_cons, Hidx. simpl.
    f_equal. f_equal; lia.
Qed.

(** ** Strong sources and the outcome of a completed round *)


Lemma strong_in_forget ctx ctx' i n :
  forget_size <$> source ctx' = forget_size <$> source ctx ->
  strong_in ctx i n -> strong_in ctx' i n.
Proof.
  intros Heq (j & s & Hj & Hs & Hstrong).
  destruct (forget_size_lookup ctx ctx' j s Heq Hs) as (s' & Hs' & Hf).
  exists j, s'. repeat split; try lia; try assumption.
  apply (f_equal strong) in Hf. simpl in Hf. congruence.
Qed.

Lemma strong_in_S ctx i n s :
  source_at ctx i = Some s ->
  strong_in ctx i (S n) <->
  strong s = MBEDTLS_ENTROPY_SOURCE_STRONG \/ strong_in ctx (i + 1) n.
Proof.
  intros Hs. split.
  - intros (j & s' & Hj & Hs' & Hstrong).
    destruct (decide (j = i)) as [->|Hne].
    + left. congruence.
    + right. exists j, s'. repeat split; try assumption; lia.
  - intros [Hstrong | (j & s' & Hj & Hs' & Hstrong)].
    + exists i, s. repeat split; try assumption; lia.
    + exists j, s'. repeat split; try assumption; lia.
Qed.

Lemma note_strong_nonzero s hs :
  note_strong s hs <> 0 <->
  strong s = MBEDTLS_ENTROPY_SOURCE_STRONG \/ hs <> 0.
Proof.
  unfold note_strong.
  destruct (Z.eqb_spec (strong s) MBEDTLS_ENTROPY_SOURCE_STRONG); split; intros; try tauto; lia.
Qed.

Lemma gather_loop_strong n i hs ctx w buf polls res :
  gather_loop n i hs ctx w buf polls = Some res ->
  g_path res = LoopDone ->
  (hs <> 0 \/ strong_in ctx i n -> g_ret res = 0) /\
  (hs = 0 -> ~ strong_in ctx i n -> g_ret res = MBEDTLS_ERR_ENTROPY_NO_STRONG_SOURCE).
Proof.
  loop_induction.
  - intros i hs ctx _ _ _ _. split.
    + intros [Hhs | (j & s & Hj & _)]; [|lia].
      destruct (Z.eqb_spec hs 0); congruence.
    + intros -> _. reflexivity.
  - discriminate.
  - discriminate.
  - intros n i hs ctx w buf polls s f r w' ctx' res Hs _ _ _ _ Hupd IH Hpath.
    apply entropy_update_eq in Hupd as (Hsrc & _).
    assert (Hfg : forget_size <$> source (add_size ctx' i (poll_olen r))
                  = forget_size <$> source ctx)
      by now rewrite add_size_forget, Hsrc.
    destruct (IH Hpath) as [IH1 IH2]. rewrite (strong_in_S _ _ _ _ Hs). split.
    + intros Hgood. apply IH1. rewrite note_strong_nonzero.
      destruct Hgood as [?|[?|?]]; eauto using strong_in_forget.
    + intros Hhs Hnone. apply IH2.
      * destruct (Z.eq_dec (note_strong s hs) 0) as [|Hnz]; [assumption|].
        apply note_strong_nonzero in Hnz. tauto.
      * intros Hin. apply Hnone. right.
        eapply strong_in_forget; [symmetry; exact Hfg | exact Hin].
  - intros n i hs ctx w buf polls s f r w' res Hs _ _ _ _ IH Hpath.
    destruct (IH Hpath) as [IH1 IH2]. rewrite (strong_in_S _ _ _ _ Hs). split.
    + intros Hgood. apply IH1. rewrite note_strong_nonzero. tauto.
    + intros Hhs Hnone. apply IH2; [|tauto].
      destruct (Z.eq_dec (note_strong s hs) 0) as [|Hnz]; [assumption|].
      apply note_strong_nonzero in Hnz. tauto.
Qed.

(** ** A round aborted by a failing callback *)



(** ** Whole rounds *)

Lemma gather_frame ctx w scratch res :
  entropy_gather_internal ctx w scratch = Some res ->
  source_count (g_ctx res) = source_count ctx /\
  forget_size <$> source (g_ctx res) = forget_size <$> source ctx /\
  (accumulator_started ctx <> 0 -> accumulator_started (g_ctx res) <> 0).
Proof.
  unfold entropy_gather_internal. destruct (source_count ctx =? 0).
  - intros [= <-]. simpl. auto.
  - apply gather_loop_frame.
Qed.

Lemma gather_ok_path ctx w scratch res :
  entropy_gather_internal ctx w scratch = Some res ->
  g_ret res = 0 -> g_path res = LoopDone.
Proof.
  unfold entropy_gather_internal. destruct (source_count ctx =? 0).
  - intros [= <-]. simpl. intros Hret.
    now destruct ERR_NO_SOURCES_DEFINED_nonzero.
  - intros Hloop Hret. apply gather_loop_ret in Hloop.
    destruct (g_path res); try reflexivity; tauto.
Qed.

(** ** The loops of the extraction *)

Lemma thresholds_done_defined n i ctx d d' :
  thresholds_done n i ctx d = Some d' ->
  forall j, i <= j < i + Z.of_nat n -> is_Some (source_at ctx j).
Proof.
  revert i d. induction n as [|n IH]; intros i d; simpl.
  - intros _ j Hj. lia.
  - destruct (source_at ctx i) as [s|] eqn:Hs; [|discriminate].
    intros Hrec j Hj. destruct (decide (j = i)) as [->|Hne].
    + rewrite Hs. eauto.
    + eapply IH; [exact Hrec | lia].
Qed.

Lemma thresholds_done_0 n i ctx d' :
  thresholds_done n i ctx 0 = Some d' -> d' = 0.
Proof.
  revert i. induction n as [|n IH]; intros i; simpl.
  - now intros [= <-].
  - destruct (source_at ctx i) as [s|]; [|discriminate].
    destruct (size s <? threshold s); apply IH.
Qed.

(** [done] is 0 after the test exactly when some registered source is
    below its threshold. *)
Lemma thresholds_done_below n i ctx d d' :
  thresholds_done n i ctx d = Some d' -> d <> 0 ->
  d' = 0 <->
  exists j s, i <= j < i + Z.of_nat n /\ source_at ctx j = Some s /\
              size s < threshold s.
Proof.
  revert i. induction n as [|n IH]; intros i; simpl.
  - intros [= <-] Hd. split; [contradiction|]. intros (j & s & Hj & _). lia.
  - destruct (source_at ctx i) as [s|] eqn:Hs; [|discriminate].
    destruct (Z.ltb_spec (size s) (threshold s)) as [Hlt|Hge]; intros Hrec Hd.
    + apply thresholds_done_0 in Hrec. split; [|auto].
      intros _. exists i, s. repeat split; try assumption; lia.
    + rewrite (IH _ Hrec Hd). split.
      * intros (j & s' & Hj & Hs' & Hlt). exists j, s'. repeat split; try assumption; lia.
      * intros (j & s' & Hj & Hs' & Hlt). destruct (decide (j = i)) as [->|Hne].
        -- rewrite Hs in Hs'. injection Hs' as <-. lia.
        -- exists j, s'. repeat split; try assumption; lia.
Qed.

Lemma reset_sizes_lookup n i l j :
  0 <= i ->
  reset_sizes n i l !! j =
    if decide (Z.to_nat i <= j < Z.to_nat i + n)%nat
    then forget_size <$> l !! j else l !! j.
Proof.
  revert i l. induction n as [|n IH]; intros i l Hi; simpl.
  - case_decide; [lia | reflexivity].
  - rewrite IH by lia. replace (Z.to_nat (i + 1)) with (S (Z.to_nat i)) by lia.
    destruct (decide (Z.to_nat i = j)) as [<-|Hne].
    + rewrite list_lookup_alter_eq.
      repeat case_decide; try lia. reflexivity.
    + rewrite list_lookup_alter_ne by assumption.
      repeat case_decide; try lia; reflexivity.
Qed.

Lemma gather_until_done_frame fuel count ctx w scratch ret ctx' w' :
  gather_until_done fuel count ctx w scratch = Some (ret, ctx', w') ->
  source_count ctx' = source_count ctx /\
  forget_size <$> source ctx' = forget_size <$> source ctx /\
  (accumulator_started ctx <> 0 -> accumulator_started ctx' <> 0) /\
  (ret = 0 ->
   forall j, 0 <= j < source_count ctx' -> is_Some (source_at ctx' j)).
Proof.
  revert count ctx w. induction fuel as [|fuel IH]; intros count ctx w; simpl.
  - discriminate.
  - destruct (count >? ENTROPY_MAX_LOOP).
    { intros [= <- <- <-]. repeat split; auto.
      intros Hz. now destruct ERR_SOURCE_FAILED_nonzero. }
    destruct (entropy_gather_internal ctx w scratch) as [r|] eqn:Hg; [|discriminate].
    apply gather_frame in Hg as (Hc & Hf & Hs).
    destruct (nonzero (g_ret r)) eqn:Hnz.
    { intros [= <- <- <-]. apply nonzero_true in Hnz. repeat split; auto.
      intros Hz. contradiction. }
    destruct (thresholds_done _ 0 (g_ctx r) 1) as [done|] eqn:Hdone; [|discriminate].
    destruct (done =? 0).
    + intros Hrec. apply IH in Hrec as (Hc' & Hf' & Hs' & Hdef).
      split; [congruence|]. split; [congruence|]. split; [auto|exact Hdef].
    + intros [= <- <- <-]. repeat split; auto.
      intros _ j Hj. eapply thresholds_done_defined; [exact Hdone | lia].
Qed.

(** The reseeding step never writes [accumulator_started] or the count. *)
Lemma reseed_and_output_frame ctx w output len :
  let res := reseed_and_output ctx w output len in
  accumulator_started (f_ctx res) = accumulator_started ctx /\
  source_count (f_ctx res) = source_count ctx /\
  f_world res = w /\
  (f_ret res <> 0 -> f_output res = output /\ source (f_ctx res) = source ctx) /\
  (f_ret res = 0 ->
   source (f_ctx res) = reset_sizes (Z.to_nat (source_count ctx)) 0 (source ctx)).
Proof.
  unfold reseed_and_output. repeat case_match; simpl;
    repeat match goal with
    | Hnz : nonzero _ = true |- _ => apply nonzero_true in Hnz
    end;
    repeat split; auto; try congruence; try tauto.
Qed.

Lemma entropy_func_frame ctx w output len scratch res :
  mbedtls_entropy_func ctx w output len scratch = Some res ->
  source_count (f_ctx res) = source_count ctx /\
  (accumulator_started ctx <> 0 -> accumulator_started (f_ctx res) <> 0) /\
  (f_ret res <> 0 -> f_output res = output).
Proof.
  unfold mbedtls_entropy_func. destruct (len >? MBEDTLS_ENTROPY_BLOCK_SIZE).
  { intros [= <-]. simpl. auto. }
  destruct (gather_until_done _ 0 ctx w scratch) as [[[ret c] w']|] eqn:Hloop;
    [|discriminate].
  apply gather_until_done_frame in Hloop as (Hc & _ & Hs & _).
  destruct (nonzero ret).
  { intros [= <-]. simpl. auto. }
  intros [= <-].
  destruct (reseed_and_output_frame c w' output len) as (Hst & Hcnt & _ & Hout & _).
  rewrite Hst, Hcnt. repeat split; auto. intros Hnz. now apply Hout.
Qed.

(** ** The mask [& 0xFF] on a length that fits a byte *)

Lemma land_255_small x : 0 <= x <= 255 -> Z.land x 255 = x.
Proof.
  intros Hx. change 255 with (Z.ones 8).
  rewrite Z.land_ones by lia. apply Z.mod_small. lia.
Qed.


(** ** A check that decides whether the rounds stall *)

Lemma all_stalled_sound k ctx w scratch :
  all_stalled k ctx w scratch = true ->
  forall n, (1 <= n <= k)%nat ->
    exists c w', gather_rounds n ctx w scratch = Some (c, w') /\
                 thresholds_met c = Some 0.
Proof.
  revert ctx w. induction k as [|k IH]; intros ctx w Hall n Hn; [lia|].
  simpl in Hall.
  destruct (entropy_gather_internal ctx w scratch) as [r|] eqn:Hg; [|discriminate].
  destruct (nonzero (g_ret r)) eqn:Hnz; [discriminate|].
  destruct (thresholds_met (g_ctx r)) as [done|] eqn:Hmet; [|discriminate].
  apply andb_true_iff in Hall as [Hdone Hall]. apply Z.eqb_eq in Hdone. subst done.
  destruct n as [|[|n]]; [lia| |].
  - exists (g_ctx r), (g_world r). simpl. rewrite Hg, Hnz. auto.
  - destruct (IH _ _ Hall (S n) ltac:(lia)) as (c & w' & Hr & Hm).
    exists c, w'. split; [|exact Hm].
    change (gather_rounds (S (S n)) ctx w scratch)
      with (match entropy_gather_internal ctx w scratch with
            | None => None
            | Some r => if nonzero (g_ret r) then None
                        else gather_rounds (S n) (g_ctx r) (g_world r) scratch
            end).
    now rewrite Hg, Hnz.
Qed.

(** * The claims *)

(** C1 (amended).  A request for more than MBEDTLS_ENTROPY_BLOCK_SIZE
    bytes is refused before anything else happens: the call returns the
    nonzero code MBEDTLS_ERR_ENTROPY_SOURCE_FAILED (the code that stands
    for a failed source; entropy.c has no code of its own for a request
    that is too large), and the output buffer, the context and the world
    are exactly what they were. *)
Theorem entropy_func_too_large ctx w output len scratch :
  MBEDTLS_ENTROPY_BLOCK_SIZE < len ->
  mbedtls_entropy_func ctx w output len scratch =
    Some {| f_ret := MBEDTLS_ERR_ENTROPY_SOURCE_FAILED; f_ctx := ctx;
            f_world := w; f_output := output |} /\
  MBEDTLS_ERR_ENTROPY_SOURCE_FAILED <> 0 /\
  error_of_code MBEDTLS_ERR_ENTROPY_SOURCE_FAILED = Some SourceFailed.
Proof.
  intros Hlen. unfold mbedtls_entropy_func.
  destruct (Z.gtb_spec len MBEDTLS_ENTROPY_BLOCK_SIZE); [|lia].
  split; [reflexivity|].
  split; [apply ERR_SOURCE_FAILED_nonzero | apply error_of_code_values].
Qed.

(** C2 (amended).  In a round that runs to the end of its loop (every
    callback returned 0 and every mix step succeeded), the outcome is
    decided by the classification of the registered sources, not by what
    they contributed: if no registered source is classified Strong the
    round returns MBEDTLS_ERR_ENTROPY_NO_STRONG_SOURCE, in particular
    when all sources are Weak and contribute data; if some registered
    source is classified Strong the round returns 0, whether or not that
    source wrote any byte. *)
Theorem gather_strong_registered ctx w scratch res :
  entropy_gather_internal ctx w scratch = Some res ->
  g_path res = LoopDone ->
  (~ strong_registered ctx -> g_ret res = MBEDTLS_ERR_ENTROPY_NO_STRONG_SOURCE) /\
  (strong_registered ctx -> g_ret res = 0) /\
  MBEDTLS_ERR_ENTROPY_NO_STRONG_SOURCE <> 0 /\
  error_of_code MBEDTLS_ERR_ENTROPY_NO_STRONG_SOURCE = Some NoStrongSource.
Proof.
  unfold entropy_gather_internal, strong_registered.
  destruct (source_count ctx =? 0); [intros [= <-]; discriminate|].
  intros Hloop Hpath.
  destruct (gather_loop_strong _ _ _ _ _ _ _ _ Hloop Hpath) as [Hgood Hbad].
  split; [auto|]. split; [auto|]. split; [apply ERR_NO_STRONG_SOURCE_nonzero|].
  apply error_of_code_values.
Qed.

(** Where the local buffer of a round stands on each exit (used for C3):
    wiped on the two exits that pass through [cleanup], untouched since
    the last callback on the exit taken when the mix step fails. *)
Lemma gather_scratch_at_exit ctx w scratch res :
  entropy_gather_internal ctx w scratch = Some res ->
  match g_path res with
  | LoopDone | PollFailed _ =>
      zeroized (take (Z.to_nat MBEDTLS_ENTROPY_MAX_GATHER) (g_buf res))
  | UpdateFailed k =>
      exists e, last (g_polls res) = Some e /\ ev_index e = k /\ ev_ret e = 0 /\
                0 < ev_olen e /\ g_buf res = ev_output e
  | NoSources => g_buf res = scratch
  end.
Proof.
  unfold entropy_gather_internal. destruct (source_count ctx =? 0).
  - intros [= <-]. reflexivity.
  - intros Hloop. apply gather_loop_buf in Hloop.
    destruct (g_path res); auto. contradiction.
Qed.

(** The exit [LoopDone] in terms of the callbacks: all registered sources
    were polled, in order, and all returned 0. *)
Lemma gather_done_polls ctx w scratch res :
  entropy_gather_internal ctx w scratch = Some res ->
  g_path res = LoopDone ->
  ev_index <$> g_polls res = seqZ 0 (source_count ctx) /\
  Forall (fun e => ev_ret e = 0) (g_polls res).
Proof.
  unfold entropy_gather_internal.
  destruct (Z.eqb_spec (source_count ctx) 0); [intros [= <-]; discriminate|].
  intros Hloop Hpath.
  destruct (gather_loop_done _ _ _ _ _ _ _ _ Hloop Hpath) as (evs & -> & Hidx & Hall).
  simpl. split; [|assumption]. rewrite Hidx.
  destruct (Z.le_gt_cases 0 (source_count ctx)).
  - now rewrite Z2Nat.id.
  - rewrite !seqZ_nil by lia. reflexivity.
Qed.

Lemma gather_rounds_S n ctx w scratch r :
  entropy_gather_internal ctx w scratch = Some r -> g_ret r = 0 ->
  gather_rounds (S n) ctx w scratch = gather_rounds n (g_ctx r) (g_world r) scratch.
Proof. intros Hg Hret. simpl. rewrite Hg, Hret. reflexivity. Qed.

Lemma gather_rounds_1 ctx w scratch c w' :
  gather_rounds 1 ctx w scratch = Some (c, w') ->
  exists r, entropy_gather_internal ctx w scratch = Some r /\ g_ret r = 0 /\
            g_ctx r = c /\ g_world r = w'.
Proof.
  simpl. destruct (entropy_gather_internal ctx w scratch) as [r|]; [|discriminate].
  destruct (nonzero (g_ret r)) eqn:Hnz; [discriminate|].
  apply nonzero_false in Hnz. intros [= <- <-]. eauto.
Qed.

Lemma gather_until_done_stalled k ctx w scratch :
  (k <= 257)%nat ->
  (forall n, (1 <= n <= k)%nat ->
     exists c w', gather_rounds n ctx w scratch = Some (c, w') /\
                  thresholds_met c = Some 0) ->
  exists c w',
    gather_rounds k ctx w scratch = Some (c, w') /\
    gather_until_done (S k) (257 - Z.of_nat k) ctx w scratch =
      Some (MBEDTLS_ERR_ENTROPY_SOURCE_FAILED, c, w').
Proof.
  revert ctx w. induction k as [|k IH]; intros ctx w Hk Hstall.
  - exists ctx, w. split; reflexivity.
  - destruct (Hstall 1%nat ltac:(lia)) as (c1 & w1 & Hone & Hmet).
    apply gather_rounds_1 in Hone as (r & Hg & Hret & <- & <-).
    destruct (IH (g_ctx r) (g_world r) ltac:(lia)) as (c & w' & Hrounds & Hloop).
    { intros n Hn. destruct (Hstall (S n) ltac:(lia)) as (c' & w'' & Hr & Hm).
      rewrite (gather_rounds_S _ _ _ _ _ Hg Hret) in Hr. eauto. }
    exists c, w'. split.
    + now rewrite (gather_rounds_S _ _ _ _ _ Hg Hret).
    + cbn [gather_until_done]. unfold ENTROPY_MAX_LOOP.
      destruct (Z.gtb_spec (257 - Z.of_nat (S k)) 256); [lia|].
      rewrite Hg, Hret. cbn [nonzero Z.eqb negb].
      unfold thresholds_met in Hmet. rewrite Hmet. cbn [Z.eqb].
      replace (257 - Z.of_nat (S k) + 1) with (257 - Z.of_nat k) by lia.
      exact Hloop.
Qed.

(** C4 (amended).  If every round succeeds and after each of them some
    source is still below its threshold, the call makes exactly 257 rounds
    (the test [count++ > ENTROPY_MAX_LOOP] lets the counts 0 to 256 pass),
    then returns the nonzero code MBEDTLS_ERR_ENTROPY_SOURCE_FAILED (the
    code of a failed source; there is no code of its own for the exceeded
    bound), with the context as the 257 rounds left it and the output
    buffer unchanged.  The call always returns. *)
Theorem entropy_func_loop_bound ctx w output len scratch :
  len <= MBEDTLS_ENTROPY_BLOCK_SIZE ->
  (forall n, (1 <= n <= 257)%nat ->
     exists c w', gather_rounds n ctx w scratch = Some (c, w') /\
                  thresholds_met c = Some 0) ->
  exists c w',
    gather_rounds 257 ctx w scratch = Some (c, w') /\
    mbedtls_entropy_func ctx w output len scratch =
      Some {| f_ret := MBEDTLS_ERR_ENTROPY_SOURCE_FAILED; f_ctx := c;
              f_world := w'; f_output := output |} /\
    MBEDTLS_ERR_ENTROPY_SOURCE_FAILED <> 0 /\
    error_of_code MBEDTLS_ERR_ENTROPY_SOURCE_FAILED = Some SourceFailed.
Proof.
  intros Hlen Hstall.
  destruct (gather_until_done_stalled 257 ctx w scratch ltac:(lia) Hstall)
    as (c & w' & Hrounds & Hloop).
  exists c, w'. split; [exact Hrounds|].
  split; [|split; [apply ERR_SOURCE_FAILED_nonzero | apply error_of_code_values]].
  unfold mbedtls_entropy_func.
  destruct (Z.gtb_spec len MBEDTLS_ENTROPY_BLOCK_SIZE); [lia|].
  change (Z.to_nat (ENTROPY_MAX_LOOP + 2)) with 258%nat.
  change (257 - Z.of_nat 257) with 0 in Hloop. rewrite Hloop.
  destruct (nonzero MBEDTLS_ERR_ENTROPY_SOURCE_FAILED) eqn:Hnz; [reflexivity|].
  apply nonzero_false in Hnz. now destruct ERR_SOURCE_FAILED_nonzero.
Qed.

(** C5 (amended).  When the pre-hash (made only for data longer than one
    block) and the start of the hash (made only while the accumulator is
    not started) succeed, the mix step passes to the running hash first
    the two bytes [source_tag; min(len, MBEDTLS_ENTROPY_BLOCK_SIZE)] and,
    if that update succeeds, then the payload: the data itself, or its
    one-block digest when it is longer than a block.  The length byte is
    therefore capped at the block size, not at 255. *)
Theorem entropy_update_header ctx tag data len :
  0 <= len ->
  let use_len := Z.min len MBEDTLS_ENTROPY_BLOCK_SIZE in
  let pre := if len >? MBEDTLS_ENTROPY_BLOCK_SIZE
             then sha_ret (mem_read data len) 0 else (0, data) in
  let acc0 := if accumulator_started ctx =? 0
              then snd (sha_starts_ret (accumulator ctx) 0) else accumulator ctx in
  let hdr := sha_update_ret acc0 [tag; use_len] in
  let pay := sha_update_ret (snd hdr) (mem_read (snd pre) use_len) in
  fst pre = 0 ->
  (accumulator_started ctx = 0 -> fst (sha_starts_ret (accumulator ctx) 0) = 0) ->
  entropy_update ctx tag data len =
    if nonzero (fst hdr)
    then (fst hdr, set_accumulator (set_accumulator_started ctx 1) (snd hdr))
    else (fst pay, set_accumulator (set_accumulator_started ctx 1) (snd pay)).
Proof.
  intros Hlen use_len pre acc0 hdr pay Hpre Hstart.
  pose proof BLOCK_SIZE_range as Hblock.
  assert (Hland : Z.land use_len 255 = use_len)
    by (apply land_255_small; subst use_len; lia).
  unfold entropy_update. subst pre hdr pay acc0.
  destruct (Z.gtb_spec len MBEDTLS_ENTROPY_BLOCK_SIZE) as [Hbig|Hsmall].
  - replace use_len with MBEDTLS_ENTROPY_BLOCK_SIZE in * by (subst use_len; lia).
    destruct (sha_ret (mem_read data len) 0) as [r tmp]. simpl in Hpre. subst r.
    simpl nonzero. cbv iota. rewrite Hland.
    destruct (Z.eqb_spec (accumulator_started ctx) 0) as [H0|Hn0].
    + specialize (Hstart H0).
      destruct (sha_starts_ret (accumulator ctx) 0) as [r acc]. simpl in Hstart. subst r.
      simpl. destruct (sha_update_ret acc _) as [r1 acc1]. simpl.
      destruct (nonzero r1); [reflexivity|].
      now destruct (sha_update_ret acc1 _).
    + simpl. destruct (sha_update_ret (accumulator ctx) _) as [r1 acc1]. simpl.
      destruct (nonzero r1); [reflexivity|].
      now destruct (sha_update_ret acc1 _).
  - replace use_len with len in * by (subst use_len; lia).
    simpl nonzero. cbv iota. rewrite Hland.
    destruct (Z.eqb_spec (accumulator_started ctx) 0) as [H0|Hn0].
    + specialize (Hstart H0).
      destruct (sha_starts_ret (accumulator ctx) 0) as [r acc]. simpl in Hstart. subst r.
      simpl. destruct (sha_update_ret acc _) as [r1 acc1]. simpl.
      destruct (nonzero r1); [reflexivity|].
      now destruct (sha_update_ret acc1 _).
    + simpl. destruct (sha_update_ret (accumulator ctx) _) as [r1 acc1]. simpl.
      destruct (nonzero r1); [reflexivity|].
      now destruct (sha_update_ret acc1 _).
Qed.

(** C6.  After a call of the extraction entry point that returns 0, the
    byte counter of every registered source is 0. *)
Theorem entropy_func_resets_sizes ctx w output len scratch res :
  mbedtls_entropy_func ctx w output len scratch = Some res ->
  f_ret res = 0 ->
  forall i, 0 <= i < source_count (f_ctx res) ->
    exists s, source_at (f_ctx res) i = Some s /\ size s = 0.
Proof.
  unfold mbedtls_entropy_func. destruct (len >? MBEDTLS_ENTROPY_BLOCK_SIZE).
  { intros [= <-]. simpl. intros Hz. now destruct ERR_SOURCE_FAILED_nonzero. }
  destruct (gather_until_done _ 0 ctx w scratch) as [[[ret c] w']|] eqn:Hloop;
    [|discriminate].
  apply gather_until_done_frame in Hloop as (_ & _ & _ & Hdef).
  destruct (nonzero ret) eqn:Hnz.
  { intros [= <-]. simpl. apply nonzero_true in Hnz. contradiction. }
  apply nonzero_false in Hnz. specialize (Hdef Hnz).
  intros [= <-] Hret i Hi.
  destruct (reseed_and_output_frame c w' output len) as (_ & Hcnt & _ & _ & Hsrc).
  specialize (Hsrc Hret). rewrite Hcnt in Hi.
  destruct (Hdef i Hi) as [s Hs].
  exists (forget_size s). split; [|reflexivity].
  unfold source_at in *. destruct (Z.ltb_spec i 0); [lia|].
  rewrite Hsrc, reset_sizes_lookup by lia.
  case_decide; [|lia]. now rewrite Hs.
Qed.

(** ** The registry never overflows *)

Lemma add_source_count ctx f p thr strg ret ctx' :
  mbedtls_entropy_add_source ctx f p thr strg = Some (ret, ctx') ->
  0 <= source_count ctx <= MBEDTLS_ENTROPY_MAX_SOURCES ->
  0 <= source_count ctx' <= MBEDTLS_ENTROPY_MAX_SOURCES.
Proof.
  unfold mbedtls_entropy_add_source.
  destruct (Z.geb_spec (source_count ctx) MBEDTLS_ENTROPY_MAX_SOURCES).
  - intros [= <- <-]. auto.
  - destruct (source_at ctx (source_count ctx)); [|discriminate].
    intros [= <- <-]. simpl. lia.
Qed.

Lemma add_source_started ctx f p thr strg ret ctx' :
  mbedtls_entropy_add_source ctx f p thr strg = Some (ret, ctx') ->
  accumulator_started ctx' = accumulator_started ctx.
Proof.
  unfold mbedtls_entropy_add_source.
  destruct (source_count ctx >=? MBEDTLS_ENTROPY_MAX_SOURCES).
  - now intros [= <- <-].
  - destruct (source_at ctx (source_count ctx)); [|discriminate].
    now intros [= <- <-].
Qed.

Lemma add_source_ignore_inv (I : mbedtls_entropy_context -> Prop) f p thr strg o ctx' :
  (forall ctx r c, I ctx ->
     mbedtls_entropy_add_source ctx (Some f) p thr strg = Some (r, c) -> I c) ->
  (forall ctx, o = Some ctx -> I ctx) ->
  add_source_ignore f p thr strg o = Some ctx' -> I ctx'.
Proof.
  intros Hadd Ho. unfold add_source_ignore. destruct o as [ctx|]; [|discriminate].
  destruct (mbedtls_entropy_add_source ctx (Some f) p thr strg) as [[r c]|] eqn:Ha;
    simpl; [|discriminate].
  intros [= <-]. eapply Hadd; eauto.
Qed.

Lemma init_inv (I : mbedtls_entropy_context -> Prop) ctx :
  (forall ctx f p thr strg r c, I ctx ->
     mbedtls_entropy_add_source ctx f p thr strg = Some (r, c) -> I c) ->
  (forall l, I {| accumulator_started := 0; accumulator := sha_init;
                  source_count := 0; source := l |}) ->
  mbedtls_entropy_init = Some ctx -> I ctx.
Proof.
  intros Hadd H0. unfold mbedtls_entropy_init.
  destruct MBEDTLS_NO_DEFAULT_ENTROPY_SOURCES.
  { intros [= <-]. apply H0. }
  apply add_source_ignore_inv; [eauto|]. intros c1.
  destruct MBEDTLS_HAVEGE_C.
  - apply add_source_ignore_inv; [eauto|]. intros c2.
    apply add_source_ignore_inv; [eauto|]. intros c3 [= <-]. apply H0.
  - apply add_source_ignore_inv; [eauto|]. intros c3 [= <-]. apply H0.
Qed.

Lemma run_call_source_count c ctx w ctx' w' :
  run_call c ctx w = Some (ctx', w') ->
  0 <= source_count ctx <= MBEDTLS_ENTROPY_MAX_SOURCES ->
  0 <= source_count ctx' <= MBEDTLS_ENTROPY_MAX_SOURCES.
Proof.
  destruct c as [f p thr strg | data len | scratch | output len scratch]; simpl.
  - destruct (mbedtls_entropy_add_source ctx f p thr strg) as [[r c]|] eqn:Ha;
      simpl; [|discriminate].
    intros [= <- <-]. eapply add_source_count; eauto.
  - intros [= <- <-]. unfold mbedtls_entropy_update_manual.
    now rewrite entropy_update_source_count.
  - unfold mbedtls_entropy_gather.
    destruct (entropy_gather_internal ctx w scratch) as [r|] eqn:Hg; simpl; [|discriminate].
    intros [= <- <-]. apply gather_frame in Hg as (-> & _). auto.
  - destruct (mbedtls_entropy_func ctx w output len scratch) as [r|] eqn:Hf;
      simpl; [|discriminate].
    intros [= <- <-]. apply entropy_func_frame in Hf as (-> & _). auto.
Qed.

(** C7.  Once the count of registered sources has reached
    MBEDTLS_ENTROPY_MAX_SOURCES, every call of mbedtls_entropy_add_source
    fails with the nonzero code MBEDTLS_ERR_ENTROPY_MAX_SOURCES and leaves
    the context as it was; and in every context reachable from
    mbedtls_entropy_init the count lies between 0 and that capacity. *)
Theorem source_count_bounded :
  (forall ctx f p thr strg,
     MBEDTLS_ENTROPY_MAX_SOURCES <= source_count ctx ->
     mbedtls_entropy_add_source ctx f p thr strg =
       Some (MBEDTLS_ERR_ENTROPY_MAX_SOURCES, ctx)) /\
  MBEDTLS_ERR_ENTROPY_MAX_SOURCES <> 0 /\
  error_of_code MBEDTLS_ERR_ENTROPY_MAX_SOURCES = Some MaxSourcesExceeded /\
  (forall ctx w, reachable ctx w ->
     0 <= source_count ctx <= MBEDTLS_ENTROPY_MAX_SOURCES).
Proof.
  split; [|split; [|split]].
  - intros ctx f p thr strg Hfull. unfold mbedtls_entropy_add_source.
    destruct (Z.geb_spec (source_count ctx) MBEDTLS_ENTROPY_MAX_SOURCES); [reflexivity|lia].
  - apply ERR_MAX_SOURCES_nonzero.
  - apply error_of_code_values.
  - intros ctx w Hreach. induction Hreach as [ctx w Hinit | c ctx w ctx' w' _ IH Hcall].
    + revert Hinit.
      apply (init_inv (fun c => 0 <= source_count c <= MBEDTLS_ENTROPY_MAX_SOURCES)).
      * intros c0 f p thr strg r c1 Hc Ha. eapply add_source_count; eauto.
      * intros l. simpl. pose proof MAX_SOURCES_nonneg. lia.
    + eapply run_call_source_count; eauto.
Qed.


(** Where [accumulator_started] is written: it is 0 after
    mbedtls_entropy_init and after mbedtls_entropy_free, a mix step that
    succeeds leaves it at 1, no call on the context takes it from nonzero
    to 0, and the reseeding in mbedtls_entropy_func does not assign it. *)
Lemma accumulator_started_writes :
  (forall ctx, mbedtls_entropy_init = Some ctx -> accumulator_started ctx = 0) /\
  (forall ctx, accumulator_started (mbedtls_entropy_free ctx) = 0) /\
  (forall ctx tag data len,
     fst (entropy_update ctx tag data len) = 0 ->
     accumulator_started (snd (entropy_update ctx tag data len)) = 1) /\
  (forall c ctx w ctx' w',
     run_call c ctx w = Some (ctx', w') ->
     accumulator_started ctx <> 0 -> accumulator_started ctx' <> 0) /\
  (forall ctx w output len,
     accumulator_started (f_ctx (reseed_and_output ctx w output len)) =
     accumulator_started ctx).
Proof.
  split; [|split; [|split; [|split]]].
  - intros ctx. apply (init_inv (fun c => accumulator_started c = 0)).
    + intros c0 f p thr strg r c1 Hc Ha.
      apply add_source_started in Ha. congruence.
    + reflexivity.
  - reflexivity.
  - apply entropy_update_ok_started.
  - intros c ctx w ctx' w'.
    destruct c as [f p thr strg | data len | scratch | output len scratch]; simpl.
    + destruct (mbedtls_entropy_add_source ctx f p thr strg) as [[r c]|] eqn:Ha;
        simpl; [|discriminate].
      intros [= <- <-]. apply add_source_started in Ha. congruence.
    + intros [= <- <-]. unfold mbedtls_entropy_update_manual.
      destruct (entropy_update_started ctx (to_uchar MBEDTLS_ENTROPY_SOURCE_MANUAL) data len)
        as [-> | ->]; auto with lia.
    + unfold mbedtls_entropy_gather.
      destruct (entropy_gather_internal ctx w scratch) as [r|] eqn:Hg; simpl; [|discriminate].
      intros [= <- <-]. now apply gather_frame in Hg as (_ & _ & Hs).
    + destruct (mbedtls_entropy_func ctx w output len scratch) as [r|] eqn:Hf;
        simpl; [|discriminate].
      intros [= <- <-]. now apply entropy_func_frame in Hf as (_ & Hs & _).
  - intros ctx w output len.
    now destruct (reseed_and_output_frame ctx w output len) as (Hst & _).
Qed.

(** C10 (amended).  A manual update with an empty byte string, made when
    the start of the hash succeeds (it is attempted only while the
    accumulator is not started), is not a no-op: the running hash receives
    the two header bytes [manual tag; 0] and, if that update succeeds,
    the empty payload; the flag is 1 afterwards; and the context can only
    be what it was before if the flag was already set and the hash
    primitive maps its context to itself on these updates. *)
Theorem update_manual_empty ctx data :
  let acc0 := if accumulator_started ctx =? 0
              then snd (sha_starts_ret (accumulator ctx) 0) else accumulator ctx in
  let hdr := sha_update_ret acc0 [to_uchar MBEDTLS_ENTROPY_SOURCE_MANUAL; 0] in
  let pay := sha_update_ret (snd hdr) [] in
  let res := mbedtls_entropy_update_manual ctx data 0 in
  (accumulator_started ctx = 0 -> fst (sha_starts_ret (accumulator ctx) 0) = 0) ->
  res = (if nonzero (fst hdr)
         then (fst hdr, set_accumulator (set_accumulator_started ctx 1) (snd hdr))
         else (fst pay, set_accumulator (set_accumulator_started ctx 1) (snd pay))) /\
  accumulator_started (snd res) = 1 /\
  (snd res = ctx ->
   accumulator_started ctx = 1 /\
   accumulator ctx = snd (if nonzero (fst hdr) then hdr else pay)).
Proof.
  intros acc0 hdr pay res Hstart.
  pose proof BLOCK_SIZE_range as Hblock.
  assert (Hres : res =
            if nonzero (fst hdr)
            then (fst hdr, set_accumulator (set_accumulator_started ctx 1) (snd hdr))
            else (fst pay, set_accumulator (set_accumulator_started ctx 1) (snd pay))).
  { subst res pay hdr acc0.
    unfold mbedtls_entropy_update_manual, entropy_update.
    destruct (Z.gtb_spec 0 MBEDTLS_ENTROPY_BLOCK_SIZE); [lia|].
    change (mem_read data 0) with (@nil Z).
    cbn [nonzero Z.eqb negb Z.land mem_read Z.to_nat Pos.to_nat Pos.iter_op take].
    destruct (Z.eqb_spec (accumulator_started ctx) 0) as [H0|Hn0].
    - specialize (Hstart H0).
      destruct (sha_starts_ret (accumulator ctx) 0) as [r acc]. simpl in Hstart. subst r.
      simpl. destruct (sha_update_ret acc _) as [r1 acc1]. simpl.
      destruct (nonzero r1); [reflexivity|].
      now destruct (sha_update_ret acc1 []).
    - simpl. destruct (sha_update_ret (accumulator ctx) _) as [r1 acc1]. simpl.
      destruct (nonzero r1); [reflexivity|].
      now destruct (sha_update_ret acc1 []). }
  split; [exact Hres|]. rewrite Hres.
  destruct (nonzero (fst hdr)); simpl; (split; [reflexivity|]);
    intros Heq; rewrite <- Heq at 1 2; simpl; auto.
Qed.

End Properties.

(** * The claims on the sample build *)

Import Sample.

Lemma registry_reachable sha l (ctx : context sha) (w : Z) :
  registry sha l = Some ctx ->
  reachable (EH := sample_h) (EP := sample_poll) ctx w.
Proof.
  unfold registry.
  assert (Hgen : forall o,
    (forall c, o = Some c -> reachable (EH := sample_h) (EP := sample_poll) c w) ->
    foldl (add sha) o l = Some ctx ->
    reachable (EH := sample_h) (EP := sample_poll) ctx w).
  { clear. revert ctx. induction l as [|[[f thr] strg] l IH]; intros ctx o Ho; simpl.
    - apply Ho.
    - apply IH. intros c Hc. destruct o as [c0|]; simpl in Hc; [|discriminate].
      destruct (mbedtls_entropy_add_source c0 (Some f) (0 : Z) thr strg)
        as [[r c1]|] eqn:Ha; simpl in Hc; [|discriminate].
      injection Hc as <-.
      apply (reach_call (EH := sample_h) (EP := sample_poll)
               (AddSource (Some f) (0 : Z) thr strg) c0 w c1 w).
      + now apply Ho.
      + simpl. now rewrite Ha. }
  apply Hgen. intros c Hc. now apply reach_init.
Qed.

(** Every sample registry is built by the calls of the interface. *)
Lemma built_reachable sha l :
  defined (registry sha l) = true ->
  reachable (EH := sample_h) (EP := sample_poll) (built sha l) (0 : Z).
Proof.
  intros Hsome. apply (registry_reachable sha l). unfold built.
  destruct (registry sha l); [reflexivity | discriminate].
Qed.

(** C1, instance of the amended statement: 33 bytes from a 32-byte block. *)
Lemma entropy_func_too_large_witness :
  extract toy_sha (built toy_sha one_strong) 33 =
    Some {| f_ret := -60; f_ctx := built toy_sha one_strong; f_world := 0;
            f_output := output0 |}.
Proof.
  apply (entropy_func_too_large (EH := sample_h) (SH := toy_sha) (PF := sample_platform)).
  simpl. lia.
Defined.

(** C1, counterexample: the refused request is reported with the code of a
    failed source, not with a code that means the request was too large. *)
Lemma entropy_func_too_large_counterexample :
  exists r,
    extract toy_sha (built toy_sha one_strong) 33 = Some r /\
    f_ret r = MBEDTLS_ERR_ENTROPY_SOURCE_FAILED (EntropyH := sample_h) /\
    error_of_code (H := sample_h) (f_ret r) = Some SourceFailed /\
    error_of_code (H := sample_h) (f_ret r) <> Some RequestTooLarge.
Proof.
  eexists. split; [reflexivity|].
  split; [reflexivity|]. split; [reflexivity|]. discriminate.
Qed.

(** C2, instance of the amended statement: a registry with one Weak
    source that delivers four bytes. *)
Lemma gather_strong_registered_witness :
  exists res,
    gather toy_sha (built toy_sha weak_only) = Some res /\
    g_path res = LoopDone /\ g_ret res = -61.
Proof.
  eexists. split; [reflexivity|]. split; [reflexivity|].
  match goal with
  | |- g_ret ?r = _ =>
      apply (gather_strong_registered (EH := sample_h) (SH := toy_sha)
               (PF := sample_platform) (built toy_sha weak_only) (0 : Z) scratch0 r
               eq_refl eq_refl)
  end.
  intros (j & s & Hj & Hs & Hstrong). simpl in Hj.
  assert (j = 0) as -> by lia. vm_compute in Hs. injection Hs as <-.
  vm_compute in Hstrong. discriminate.
Defined.

(** C2, counterexample: every callback succeeds, no source contributes a
    single byte, and the round still returns 0, because the silent source
    is classified Strong. *)
Lemma gather_strong_registered_counterexample :
  exists res,
    gather toy_sha (built toy_sha strong_but_silent) = Some res /\
    Forall (fun e => ev_ret e = 0 /\ ev_olen e = 0) (g_polls res) /\
    g_ret res = 0 /\
    g_ret res <> MBEDTLS_ERR_ENTROPY_NO_STRONG_SOURCE (EntropyH := sample_h).
Proof.
  eexists. split; [reflexivity|].
  split; [|split; [reflexivity|discriminate]].
  repeat constructor.
Qed.

(** C3, the failing run: the hash refuses to start, the mix step for
    source 0 fails, and the round returns with the four bytes that the
    callback wrote still in its local buffer. *)
Lemma gather_update_failure_leaves_scratch :
  exists res,
    gather failing_sha (built failing_sha one_strong) = Some res /\
    g_path res = UpdateFailed 0 /\ g_ret res = -1 /\
    g_buf res = [170; 187; 204; 221; 5; 6; 7; 8] /\
    ~ zeroized (g_buf res).
Proof.
  eexists. split; [reflexivity|].
  split; [reflexivity|]. split; [reflexivity|]. split; [reflexivity|].
  intros Hz. apply Forall_cons in Hz as [Hz _]. discriminate.
Qed.

(** C4, instance of the amended statement: 257 rounds of two callbacks
    each (the world counts 514 calls), then the failure. *)
Lemma entropy_func_loop_bound_witness :
  exists c,
    gather_rounds (EH := sample_h) 257 (built toy_sha one_stalled) (0 : Z) scratch0
      = Some (c, 514) /\
    extract toy_sha (built toy_sha one_stalled) 16 =
      Some {| f_ret := -60; f_ctx := c; f_world := 514; f_output := output0 |}.
Proof.
  destruct (entropy_func_loop_bound (EH := sample_h) (SH := toy_sha)
              (PF := sample_platform) (built toy_sha one_stalled)
              (0 : Z) output0 16 scratch0)
    as (c & w' & Hrounds & Hfunc & _).
  - simpl. lia.
  - apply all_stalled_sound. vm_compute. reflexivity.
  - assert (Hw : snd <$> gather_rounds (EH := sample_h) 257
                   (built toy_sha one_stalled) (0 : Z) scratch0 = Some 514)
      by (vm_compute; reflexivity).
    rewrite Hrounds in Hw. injection Hw as ->.
    exists c. split; assumption.
Defined.

(** C4, counterexample: after 257 rounds (514 callbacks) the call reports
    the code of a failed source; nothing in the return value says that the
    bound on the rounds was exceeded. *)
Lemma entropy_func_loop_bound_counterexample :
  (fun r : func_result (SH := toy_sha) (PF := sample_platform) =>
     (f_ret r, f_world r : Z, error_of_code (H := sample_h) (f_ret r)))
    <$> extract toy_sha (built toy_sha one_stalled) 16
  = Some (MBEDTLS_ERR_ENTROPY_SOURCE_FAILED (EntropyH := sample_h), 514,
          Some SourceFailed) /\
  Some SourceFailed <> Some LoopExceeded.
Proof. split; [vm_compute; reflexivity | discriminate]. Qed.

(** C5, instance of the amended statement: 100 bytes from source 3 into a
    fresh accumulator; the header is [3; 32], the payload the digest. *)
Lemma entropy_update_header_witness :
  entropy_update (EH := sample_h) (built toy_sha []) 3 (replicate 100 7) 100 =
    (0, set_accumulator (set_accumulator_started (built toy_sha []) 1)
          ([3; 32] ++ toy_digest (replicate 100 7))).
Proof.
  rewrite (entropy_update_header (EH := sample_h) (SH := toy_sha)
             (PF := sample_platform) (built toy_sha []) 3 (replicate 100 7) 100);
    [reflexivity | lia | reflexivity | reflexivity].
Defined.

(** C5, counterexample: for 100 bytes of data the second header byte is
    32, the block size, and not min(100, 255) = 100. *)
Lemma entropy_update_header_counterexample :
  take 2 (accumulator
            (snd (entropy_update (EH := sample_h) (built toy_sha []) 3
                    (replicate 100 7) 100)))
  = [3; 32] /\
  [3; 32] <> [3; Z.min (Z.of_nat (length (replicate 100 7))) 255].
Proof. split; [reflexivity | discriminate]. Qed.

(** C6, instance: two rounds bring the one source to its threshold of 8
    bytes, the extraction succeeds and the counter is 0 afterwards. *)
Lemma entropy_func_resets_sizes_witness :
  exists res,
    extract toy_sha (built toy_sha one_strong) 16 = Some res /\
    f_ret res = 0 /\ f_world res = 2 /\
    exists s, source_at (f_ctx res) 0 = Some s /\ size s = 0.
Proof.
  eexists. split; [reflexivity|]. split; [reflexivity|]. split; [reflexivity|].
  match goal with
  | |- exists s, source_at (f_ctx ?r) _ = _ /\ _ =>
      apply (entropy_func_resets_sizes (EH := sample_h) (SH := toy_sha)
               (PF := sample_platform) (built toy_sha one_strong) (0 : Z)
               output0 16 scratch0 r eq_refl eq_refl 0)
  end.
  simpl. lia.
Defined.

(** C7, instance: the registry holds 20 sources, a 21st is refused, and
    the count of the reachable context is within the capacity. *)
Lemma source_count_bounded_witness :
  mbedtls_entropy_add_source (EH := sample_h) (PF := sample_platform)
    (built toy_sha full) (Some stalled_poll) (0 : Z) 4 0
    = Some (-62, built toy_sha full) /\
  0 <= source_count (built toy_sha full) <= 20.
Proof.
  destruct (source_count_bounded (EH := sample_h) (SH := toy_sha)
              (PF := sample_platform) (EP := sample_poll))
    as (Hfull & _ & _ & Hreach).
  split.
  - apply Hfull. vm_compute. discriminate.
  - apply (Hreach (built toy_sha full) (0 : Z)).
    apply built_reachable. vm_compute. reflexivity.
Defined.



(** C9, the failing run.  A source registered with threshold 0 reports no
    byte, so the extraction succeeds without any mix step: the accumulator
    is finished without having been started, the 32 bytes of the digest
    are mixed into the restarted hash, and [accumulator_started] is still
    0.  The next mix step therefore starts the hash again and the digest
    that was mixed back is gone.  On a context whose accumulator had been
    started the same two calls keep it. *)
Lemma extraction_leaves_accumulator_unstarted :
  accumulator_started (built toy_sha strong_but_silent) = 0 /\
  (fun r : func_result (SH := toy_sha) (PF := sample_platform) =>
     (f_ret r, accumulator_started (f_ctx r), accumulator (f_ctx r),
      accumulator
        (snd (mbedtls_entropy_update_manual (EH := sample_h) (f_ctx r) [1; 2; 3] 3))))
    <$> extract toy_sha (built toy_sha strong_but_silent) 16
  = Some (0, 0, toy_digest [], [20; 3; 1; 2; 3]) /\
  accumulator_started started_context = 1 /\
  (fun r : func_result (SH := toy_sha) (PF := sample_platform) =>
     (f_ret r, accumulator_started (f_ctx r), accumulator (f_ctx r),
      accumulator
        (snd (mbedtls_entropy_update_manual (EH := sample_h) (f_ctx r) [1; 2; 3] 3))))
    <$> extract toy_sha started_context 16
  = Some (0, 1,
          toy_digest ([20; 3; 1; 2; 3] ++ [0; 4; 170; 187; 204; 221]
                      ++ [0; 4; 170; 187; 204; 221]),
          toy_digest ([20; 3; 1; 2; 3] ++ [0; 4; 170; 187; 204; 221]
                      ++ [0; 4; 170; 187; 204; 221]) ++ [20; 3; 1; 2; 3]).
Proof. repeat split; vm_compute; reflexivity. Qed.

(** C10, instance of the amended statement: an empty manual update on a
    fresh context starts the hash, mixes [20; 0] and sets the flag. *)
Lemma update_manual_empty_witness :
  mbedtls_entropy_update_manual (EH := sample_h) (built toy_sha []) [] 0 =
    (0, set_accumulator (set_accumulator_started (built toy_sha []) 1) [20; 0]) /\
  accumulator_started
    (snd (mbedtls_entropy_update_manual (EH := sample_h) (built toy_sha []) [] 0)) = 1.
Proof.
  destruct (update_manual_empty (EH := sample_h) (SH := toy_sha)
              (PF := sample_platform) (built toy_sha []) [])
    as (Hres & Hst & _).
  - reflexivity.
  - split; [exact Hres | exact Hst].
Defined.

(** C10, counterexample: when the hash refuses to start, the empty manual
    update returns the error and the context is exactly what it was:
    nothing is mixed and the flag stays 0. *)
Lemma update_manual_empty_counterexample :
  mbedtls_entropy_update_manual (EH := sample_h) (built failing_sha []) [] 0 =
    (-1, built failing_sha []) /\
  accumulator_started (built failing_sha []) = 0 /\
  accumulator (built failing_sha []) = [].
Proof. repeat split. Qed.

(** * Further properties of entropy.c *)

Section MoreProperties.
Context {EH : EntropyH} {SH : Sha} {PF : Platform} {EP : EntropyPoll}.

Implicit Types (ctx : mbedtls_entropy_context) (w : world).

(** ** Registering a source *)

Lemma source_at_Some ctx i s :
  source_at ctx i = Some s -> 0 <= i < Z.of_nat (length (source ctx)).
Proof.
  unfold source_at. destruct (Z.ltb_spec i 0); [discriminate|].
  intros Hs. apply lookup_lt_Some in Hs. lia.
Qed.

Lemma source_at_defined ctx i :
  0 <= i < Z.of_nat (length (source ctx)) -> is_Some (source_at ctx i).
Proof.
  intros Hi. unfold source_at. destruct (Z.ltb_spec i 0); [lia|].
  apply lookup_lt_is_Some. lia.
Qed.

Lemma add_source_registers ctx f p thr strg s :
  source_count ctx < MBEDTLS_ENTROPY_MAX_SOURCES ->
  source_at ctx (source_count ctx) = Some s ->
  exists ctx',
    mbedtls_entropy_add_source ctx f p thr strg = Some (0, ctx') /\
    source_count ctx' = source_count ctx + 1 /\
    source_at ctx' (source_count ctx) =
      Some {| f_source := f; p_source := p; size := size s;
              threshold := thr; strong := strg |} /\
    (forall j, j <> source_count ctx -> source_at ctx' j = source_at ctx j) /\
    length (source ctx') = length (source ctx) /\
    accumulator_started ctx' = accumulator_started ctx /\
    accumulator ctx' = accumulator ctx.
Proof.
  intros Hroom Hs. pose proof (source_at_Some _ _ _ Hs) as Hidx.
  unfold mbedtls_entropy_add_source.
  destruct (Z.geb_spec (source_count ctx) MBEDTLS_ENTROPY_MAX_SOURCES); [lia|].
  rewrite Hs. eexists. split; [reflexivity|]. cbn.
  split; [reflexivity|]. split; [|split; [|split; [|split; reflexivity]]].
  - unfold source_at. cbn. destruct (Z.ltb_spec (source_count ctx) 0); [lia|].
    apply list_lookup_insert_eq. lia.
  - intros j Hj. unfold source_at. cbn. destruct (Z.ltb_spec j 0); [reflexivity|].
    apply list_lookup_insert_ne. lia.
  - apply length_insert.
Qed.

(** ** No undefined behaviour on a well-formed context *)

Lemma callbacks_registered_forget ctx ctx' :
  source_count ctx' = source_count ctx ->
  forget_size <$> source ctx' = forget_size <$> source ctx ->
  callbacks_registered ctx -> callbacks_registered ctx'.
Proof.
  intros Hc Hf [Hnn Hcb]. split; [lia|]. intros i Hi. rewrite Hc in Hi.
  destruct (Hcb i Hi) as (s & f & Hs & Hfs).
  destruct (forget_size_lookup ctx ctx' i s Hf Hs) as (s' & Hs' & Heq).
  exists s', f. split; [assumption|].
  apply (f_equal f_source) in Heq. simpl in Heq. congruence.
Qed.

Lemma well_formed_forget ctx ctx' :
  source_count ctx' = source_count ctx ->
  forget_size <$> source ctx' = forget_size <$> source ctx ->
  well_formed ctx -> well_formed ctx'.
Proof.
  intros Hc Hf (Hcb & Hle & Hlen). split; [|split].
  - eapply callbacks_registered_forget; eauto.
  - lia.
  - apply (f_equal length) in Hf. rewrite !length_fmap in Hf. lia.
Qed.

Lemma gather_loop_defined n i hs ctx w buf polls :
  0 <= i ->
  (forall j, i <= j < i + Z.of_nat n ->
     exists s f, source_at ctx j = Some s /\ f_source s = Some f) ->
  is_Some (gather_loop n i hs ctx w buf polls).
Proof.
  revert i hs ctx w buf polls.
  induction n as [|n IH]; intros i hs ctx w buf polls Hi Hcb; simpl; [eauto|].
  destruct (Hcb i ltac:(lia)) as (s & f & Hs & Hf). rewrite Hs, Hf.
  destruct (f (p_source s) buf MBEDTLS_ENTROPY_MAX_GATHER w) as [r w'].
  destruct (nonzero (poll_ret r)); [eauto|].
  destruct (poll_olen r >? 0).
  - destruct (entropy_update ctx (to_uchar i) (poll_output r) (poll_olen r))
      as [ret ctx'] eqn:Hupd.
    destruct (nonzero ret); [eauto|].
    apply IH; [lia|]. intros j Hj.
    rewrite source_at_add_size by assumption. case_decide; [lia|].
    apply entropy_update_eq in Hupd as (Hsrc & _).
    unfold source_at. rewrite Hsrc. apply Hcb. lia.
  - apply IH; [lia|]. intros j Hj. apply Hcb. lia.
Qed.

Lemma gather_defined ctx w scratch :
  well_formed ctx ->
  exists res, entropy_gather_internal ctx w scratch = Some res /\
              well_formed (g_ctx res).
Proof.
  intros Hwf.
  assert (Hsome : is_Some (entropy_gather_internal ctx w scratch)).
  { unfold entropy_gather_internal. destruct (source_count ctx =? 0); [eauto|].
    destruct Hwf as ([Hnn Hcb] & _). apply gather_loop_defined; [lia|].
    intros j Hj. apply Hcb. lia. }
  destruct Hsome as [res Hres]. exists res. split; [assumption|].
  apply gather_frame in Hres as (Hc & Hf & _).
  eapply well_formed_forget; eauto.
Qed.

Lemma thresholds_done_total n i ctx d :
  (forall j, i <= j < i + Z.of_nat n -> is_Some (source_at ctx j)) ->
  is_Some (thresholds_done n i ctx d).
Proof.
  revert i d. induction n as [|n IH]; intros i d Hdef; simpl; [eauto|].
  destruct (Hdef i ltac:(lia)) as [s ->]. apply IH. intros j Hj. apply Hdef. lia.
Qed.

Lemma gather_until_done_defined fuel count ctx w scratch :
  (1 <= fuel)%nat -> 258 <= Z.of_nat fuel + count ->
  well_formed ctx ->
  exists ret ctx' w', gather_until_done fuel count ctx w scratch = Some (ret, ctx', w') /\
                      well_formed ctx'.
Proof.
  revert count ctx w. induction fuel as [|fuel IH]; intros count ctx w Hf Hfuel Hwf; [lia|].
  simpl. destruct (Z.gtb_spec count ENTROPY_MAX_LOOP); [eauto 6|].
  destruct (gather_defined ctx w scratch Hwf) as (r & -> & Hwf').
  destruct (nonzero (g_ret r)); [eauto 6|].
  destruct (thresholds_done_total (Z.to_nat (source_count (g_ctx r))) 0 (g_ctx r) 1)
    as [done Hdone].
  { intros j Hj. destruct Hwf' as ([_ Hcb] & _).
    destruct (Hcb j ltac:(lia)) as (s & f & -> & _). eauto. }
  rewrite Hdone. destruct (done =? 0); [|eauto 6].
  unfold ENTROPY_MAX_LOOP in *. apply IH; [lia | lia | assumption].
Qed.

Lemma reset_sizes_forget n i l :
  0 <= i -> forget_size <$> reset_sizes n i l = forget_size <$> l.
Proof.
  intros Hi. apply list_eq. intros j.
  rewrite !list_lookup_fmap, reset_sizes_lookup by assumption.
  case_decide; [|reflexivity]. now destruct (l !! j).
Qed.

Lemma reseed_and_output_forget ctx w output len :
  forget_size <$> source (f_ctx (reseed_and_output ctx w output len)) =
  forget_size <$> source ctx.
Proof.
  destruct (reseed_and_output_frame ctx w output len) as (_ & _ & _ & Hfail & Hok).
  destruct (Z.eq_dec (f_ret (reseed_and_output ctx w output len)) 0) as [Hz|Hnz].
  - rewrite (Hok Hz). apply reset_sizes_forget. lia.
  - destruct (Hfail Hnz) as [_ ->]. reflexivity.
Qed.

Lemma entropy_func_defined ctx w output len scratch :
  well_formed ctx ->
  exists res, mbedtls_entropy_func ctx w output len scratch = Some res /\
              well_formed (f_ctx res).
Proof.
  intros Hwf. unfold mbedtls_entropy_func.
  destruct (len >? MBEDTLS_ENTROPY_BLOCK_SIZE); [eauto|].
  destruct (gather_until_done_defined (Z.to_nat (ENTROPY_MAX_LOOP + 2)) 0 ctx w scratch)
    as (ret & c & w' & -> & Hwf'); [unfold ENTROPY_MAX_LOOP; lia.. | assumption |].
  destruct (nonzero ret); [eauto|].
  eexists. split; [reflexivity|].
  eapply well_formed_forget; [| apply reseed_and_output_forget | exact Hwf'].
  now destruct (reseed_and_output_frame c w' output len) as (_ & -> & _).
Qed.

Lemma add_source_well_formed ctx f p thr strg :
  well_formed ctx ->
  exists ret ctx',
    mbedtls_entropy_add_source ctx (Some f) p thr strg = Some (ret, ctx') /\
    well_formed ctx'.
Proof.
  intros Hwf. pose proof Hwf as ([Hnn Hcb] & Hle & Hlen).
  destruct (Z.lt_ge_cases (source_count ctx) MBEDTLS_ENTROPY_MAX_SOURCES) as [Hroom|Hfull].
  - destruct (source_at_defined ctx (source_count ctx)) as [s Hs]; [lia|].
    destruct (add_source_registers ctx (Some f) p thr strg s Hroom Hs)
      as (ctx' & Hadd & Hc & Hnew & Hold & Hl & _).
    exists 0, ctx'. split; [assumption|]. split; [|split; [lia|lia]].
    split; [lia|]. intros i Hi.
    destruct (decide (i = source_count ctx)) as [->|Hne].
    + eauto.
    + rewrite Hold by assumption. apply Hcb. lia.
  - exists MBEDTLS_ERR_ENTROPY_MAX_SOURCES, ctx. split; [|assumption].
    unfold mbedtls_entropy_add_source.
    destruct (Z.geb_spec (source_count ctx) MBEDTLS_ENTROPY_MAX_SOURCES); [reflexivity|lia].
Qed.

(** X1 (safety and termination).  On a context whose registry is well
    formed, every call of the interface has a defined result and leaves a
    well-formed context: no callback is called through a null pointer, no
    index leaves the array, and the extraction returns (the 258 tests of
    its loop counter are enough). *)
Theorem interface_defined ctx :
  well_formed ctx ->
  (forall f p thr strg, exists ret ctx',
     mbedtls_entropy_add_source ctx (Some f) p thr strg = Some (ret, ctx') /\
     well_formed ctx') /\
  (forall data len, well_formed (snd (mbedtls_entropy_update_manual ctx data len))) /\
  (forall w scratch, exists res,
     mbedtls_entropy_gather ctx w scratch = Some res /\ well_formed (g_ctx res)) /\
  (forall w output len scratch, exists res,
     mbedtls_entropy_func ctx w output len scratch = Some res /\
     well_formed (f_ctx res)).
Proof.
  intros Hwf. split; [|split; [|split]].
  - intros. now apply add_source_well_formed.
  - intros data len. unfold mbedtls_entropy_update_manual.
    eapply well_formed_forget; [| | exact Hwf].
    + apply entropy_update_source_count.
    + now rewrite entropy_update_source.
  - intros. now apply gather_defined.
  - intros. now apply entropy_func_defined.
Qed.

(** ** What mbedtls_entropy_init sets up *)

Lemma fresh_with_0 :
  fresh_with 0
    {| accumulator_started := 0; accumulator := sha_init; source_count := 0;
       source := replicate (Z.to_nat MBEDTLS_ENTROPY_MAX_SOURCES) zero_source |}.
Proof.
  pose proof MAX_SOURCES_nonneg.
  repeat split; cbn; try lia.
  - rewrite length_replicate. reflexivity.
  - apply Forall_replicate. reflexivity.
Qed.

Lemma add_source_ignore_fresh f p thr strg ctx k :
  0 <= k -> fresh_with k ctx ->
  exists ctx',
    add_source_ignore f p thr strg (Some ctx) = Some ctx' /\
    fresh_with (k + 1) ctx' /\
    (k < MBEDTLS_ENTROPY_MAX_SOURCES ->
     source_at ctx' k = Some {| f_source := Some f; p_source := p; size := 0;
                                threshold := thr; strong := strg |}) /\
    (forall j, j <> k -> source_at ctx' j = source_at ctx j).
Proof.
  intros Hk (Hwf & Hc & Hst & Hacc & Hsz).
  pose proof Hwf as ([Hnn Hcb] & Hle & Hlen).
  unfold add_source_ignore.
  destruct (Z.lt_ge_cases k MBEDTLS_ENTROPY_MAX_SOURCES) as [Hroom|Hfull].
  - assert (Hck : source_count ctx = k) by lia.
    destruct (source_at_defined ctx (source_count ctx)) as [s Hs]; [lia|].
    assert (Hs0 : size s = 0).
    { unfold source_at in Hs. destruct (source_count ctx <? 0); [discriminate|].
      rewrite Forall_lookup in Hsz. eapply Hsz; eauto. }
    destruct (add_source_registers ctx (Some f) p thr strg s ltac:(lia) Hs)
      as (ctx' & Hadd & Hc' & Hnew & Hold & Hl & Hst' & Hacc').
    rewrite Hadd. exists ctx'. split; [reflexivity|]. rewrite Hck, Hs0 in *.
    split; [split; [|split; [|split; [|split]]]|split].
    + split; [split; [lia|]|split; [lia|lia]]. intros i Hi.
      destruct (decide (i = k)) as [->|Hne]; [eauto|].
      rewrite Hold by assumption. apply Hcb. lia.
    + lia.
    + congruence.
    + congruence.
    + rewrite Forall_lookup. intros j x Hx.
      destruct (decide (j = Z.to_nat k)) as [->|Hne].
      * unfold source_at in Hnew. destruct (k <? 0); [discriminate|].
        rewrite Hnew in Hx. injection Hx as <-. reflexivity.
      * specialize (Hold (Z.of_nat j) ltac:(lia)). unfold source_at in Hold.
        destruct (Z.ltb_spec (Z.of_nat j) 0); [lia|]. rewrite Nat2Z.id in Hold.
        rewrite Hold in Hx. rewrite Forall_lookup in Hsz. eapply Hsz; eauto.
    + intros _. exact Hnew.
    + exact Hold.
  - unfold mbedtls_entropy_add_source.
    destruct (Z.geb_spec (source_count ctx) MBEDTLS_ENTROPY_MAX_SOURCES); [|lia].
    exists ctx. cbn. split; [reflexivity|].
    split; [|split; [lia|reflexivity]].
    repeat split; try assumption; try lia; apply Hwf.
Qed.

Lemma init_fresh_with :
  exists ctx, mbedtls_entropy_init = Some ctx /\ fresh_with default_source_count ctx.
Proof.
  unfold mbedtls_entropy_init, default_source_count.
  pose proof fresh_with_0 as H0.
  destruct MBEDTLS_NO_DEFAULT_ENTROPY_SOURCES.
  { eexists. split; [reflexivity|]. exact H0. }
  destruct (add_source_ignore_fresh mbedtls_hardclock_poll NULL
              MBEDTLS_ENTROPY_MIN_HARDCLOCK MBEDTLS_ENTROPY_SOURCE_WEAK _ 0
              ltac:(lia) H0) as (c1 & -> & H1 & _).
  destruct MBEDTLS_HAVEGE_C.
  - destruct (add_source_ignore_fresh mbedtls_havege_poll havege_data
                MBEDTLS_ENTROPY_MIN_HAVEGE MBEDTLS_ENTROPY_SOURCE_STRONG c1 1
                ltac:(lia) H1) as (c2 & -> & H2 & _).
    destruct (add_source_ignore_fresh mbedtls_hardware_poll NULL
                MBEDTLS_ENTROPY_MIN_HARDWARE MBEDTLS_ENTROPY_SOURCE_STRONG c2 2
                ltac:(lia) H2) as (c3 & -> & H3 & _).
    exists c3. split; [reflexivity|]. exact H3.
  - destruct (add_source_ignore_fresh mbedtls_hardware_poll NULL
                MBEDTLS_ENTROPY_MIN_HARDWARE MBEDTLS_ENTROPY_SOURCE_STRONG c1 1
                ltac:(lia) H1) as (c2 & -> & H2 & _).
    exists c2. split; [reflexivity|]. exact H2.
Qed.

Lemma add_source_ignore_array f p thr strg ctx l :
  source ctx = take (Z.to_nat MBEDTLS_ENTROPY_MAX_SOURCES)
                 (l ++ replicate (Z.to_nat MBEDTLS_ENTROPY_MAX_SOURCES) zero_source) ->
  source_count ctx = Z.min MBEDTLS_ENTROPY_MAX_SOURCES (Z.of_nat (length l)) ->
  let e := {| f_source := Some f; p_source := p; size := 0;
              threshold := thr; strong := strg |} in
  exists ctx',
    add_source_ignore f p thr strg (Some ctx) = Some ctx' /\
    source ctx' = take (Z.to_nat MBEDTLS_ENTROPY_MAX_SOURCES)
                    ((l ++ [e]) ++
                     replicate (Z.to_nat MBEDTLS_ENTROPY_MAX_SOURCES) zero_source) /\
    source_count ctx' =
      Z.min MBEDTLS_ENTROPY_MAX_SOURCES (Z.of_nat (length (l ++ [e]))).
Proof.
  intros Hsrc Hcnt e. pose proof MAX_SOURCES_nonneg as Hnn.
  unfold add_source_ignore, mbedtls_entropy_add_source.
  rewrite length_app. simpl length.
  destruct (Z.geb_spec (source_count ctx) MBEDTLS_ENTROPY_MAX_SOURCES) as [Hfull|Hroom].
  - exists ctx. split; [reflexivity|]. split; [|lia].
    rewrite Hsrc, <- app_assoc. rewrite !take_app_le by lia. reflexivity.
  - assert (Hc : source_count ctx = Z.of_nat (length l)) by lia.
    unfold source_at. destruct (Z.ltb_spec (source_count ctx) 0) as [|_]; [lia|].
    rewrite Hc, Nat2Z.id, Hsrc.
    remember (Z.to_nat MBEDTLS_ENTROPY_MAX_SOURCES) as N eqn:HN.
    destruct N as [|n]; [lia|].
    rewrite lookup_take_lt, lookup_app_r, Nat.sub_diag by lia.
    cbn [replicate lookup list_lookup fmap option_fmap option_map snd].
    eexists. split; [reflexivity|].
    cbn [source source_count set_source set_source_count size zero_source].
    split; [|lia].
    rewrite <- take_insert_lt, insert_app_r_alt, Nat.sub_diag by lia.
    cbn [insert list_insert]. fold e.
    rewrite <- (app_assoc l [e]). cbn [app].
    change (zero_source :: replicate n zero_source)
      with (replicate (S n) zero_source).
    rewrite (replicate_S_end n zero_source).
    change (l ++ e :: replicate n zero_source ++ [zero_source])
      with (l ++ (e :: replicate n zero_source) ++ [zero_source]).
    rewrite (app_assoc l),
      (take_app_le (l ++ e :: replicate n zero_source) [zero_source]); [reflexivity|].
    rewrite length_app. simpl. rewrite length_replicate. lia.
Qed.

Lemma init_array :
  exists ctx,
    mbedtls_entropy_init = Some ctx /\
    source ctx = take (Z.to_nat MBEDTLS_ENTROPY_MAX_SOURCES)
                   (default_sources ++
                    replicate (Z.to_nat MBEDTLS_ENTROPY_MAX_SOURCES) zero_source).
Proof.
  pose proof MAX_SOURCES_nonneg as Hnn.
  unfold mbedtls_entropy_init, default_sources.
  assert (H0 : replicate (Z.to_nat MBEDTLS_ENTROPY_MAX_SOURCES) zero_source =
               take (Z.to_nat MBEDTLS_ENTROPY_MAX_SOURCES)
                 ([] ++ replicate (Z.to_nat MBEDTLS_ENTROPY_MAX_SOURCES) zero_source)).
  { simpl. rewrite take_ge; [reflexivity|]. rewrite length_replicate. lia. }
  destruct MBEDTLS_NO_DEFAULT_ENTROPY_SOURCES.
  { eexists. split; [reflexivity|]. exact H0. }
  destruct (add_source_ignore_array mbedtls_hardclock_poll NULL
              MBEDTLS_ENTROPY_MIN_HARDCLOCK MBEDTLS_ENTROPY_SOURCE_WEAK
              {| accumulator_started := 0; accumulator := sha_init; source_count := 0;
                 source := replicate (Z.to_nat MBEDTLS_ENTROPY_MAX_SOURCES) zero_source |}
              [] H0 ltac:(simpl; lia)) as (c1 & -> & Hs1 & Hc1).
  destruct MBEDTLS_HAVEGE_C.
  - destruct (add_source_ignore_array mbedtls_havege_poll havege_data
                MBEDTLS_ENTROPY_MIN_HAVEGE MBEDTLS_ENTROPY_SOURCE_STRONG c1 _ Hs1 Hc1)
      as (c2 & -> & Hs2 & Hc2).
    destruct (add_source_ignore_array mbedtls_hardware_poll NULL
                MBEDTLS_ENTROPY_MIN_HARDWARE MBEDTLS_ENTROPY_SOURCE_STRONG c2 _ Hs2 Hc2)
      as (c3 & -> & Hs3 & _).
    exists c3. split; [reflexivity|]. exact Hs3.
  - destruct (add_source_ignore_array mbedtls_hardware_poll NULL
                MBEDTLS_ENTROPY_MIN_HARDWARE MBEDTLS_ENTROPY_SOURCE_STRONG c1 _ Hs1 Hc1)
      as (c2 & -> & Hs2 & _).
    exists c2. split; [reflexivity|]. exact Hs2.
Qed.

(** X2 (init).  mbedtls_entropy_init always yields a context; its registry
    is well formed and holds the default sources of the build, as many as
    fit: the array is the list of the entries that the build registers
    (callback, handle, threshold and strength of each, in the order of
    the calls), cut at MBEDTLS_ENTROPY_MAX_SOURCES, and zero entries
    after them.  No byte is counted for any source, and the accumulator
    is the initial hash context, not started. *)
Theorem entropy_init_fresh :
  exists ctx,
    mbedtls_entropy_init = Some ctx /\
    well_formed ctx /\
    source_count ctx = Z.min MBEDTLS_ENTROPY_MAX_SOURCES default_source_count /\
    accumulator_started ctx = 0 /\
    accumulator ctx = sha_init /\
    Forall (fun s => size s = 0) (source ctx) /\
    source ctx = take (Z.to_nat MBEDTLS_ENTROPY_MAX_SOURCES)
                   (default_sources ++
                    replicate (Z.to_nat MBEDTLS_ENTROPY_MAX_SOURCES) zero_source) /\
    default_source_count = Z.of_nat (length default_sources).
Proof.
  destruct init_fresh_with as (ctx & Hinit & Hwf & Hcnt & Hst & Hacc & Hsz).
  destruct init_array as (ctx' & Hinit' & Harr).
  rewrite Hinit in Hinit'. injection Hinit' as <-.
  exists ctx. repeat (split; [assumption|]).
  unfold default_source_count, default_sources.
  destruct MBEDTLS_NO_DEFAULT_ENTROPY_SOURCES, MBEDTLS_HAVEGE_C; reflexivity.
Qed.

(** X3 (init, strong source).  In a build with default sources, the
    context set up by mbedtls_entropy_init has a source classified Strong
    exactly when the registry has room for two sources: the first default
    source, the clock, is Weak. *)
Theorem entropy_init_strong ctx :
  MBEDTLS_NO_DEFAULT_ENTROPY_SOURCES = false ->
  mbedtls_entropy_init = Some ctx ->
  (strong_registered ctx <-> 2 <= MBEDTLS_ENTROPY_MAX_SOURCES).
Proof.
  intros Hdef. unfold mbedtls_entropy_init. rewrite Hdef.
  pose proof fresh_with_0 as H0. pose proof STRONG_not_WEAK as Hsw.
  destruct (add_source_ignore_fresh mbedtls_hardclock_poll NULL
              MBEDTLS_ENTROPY_MIN_HARDCLOCK MBEDTLS_ENTROPY_SOURCE_WEAK _ 0
              ltac:(lia) H0) as (c1 & -> & H1 & Hclock & _).
  assert (Hgen : forall f p thr c2,
    add_source_ignore f p thr MBEDTLS_ENTROPY_SOURCE_STRONG (Some c1) = Some c2 ->
    forall c3, (c3 = c2 \/ exists f' p' thr',
                  add_source_ignore f' p' thr' MBEDTLS_ENTROPY_SOURCE_STRONG (Some c2)
                  = Some c3) ->
    (strong_registered c3 <-> 2 <= MBEDTLS_ENTROPY_MAX_SOURCES)).
  { intros f p thr c2 Hc2 c3 Hc3.
    destruct (add_source_ignore_fresh f p thr MBEDTLS_ENTROPY_SOURCE_STRONG c1 1
                ltac:(lia) H1) as (c2' & Hc2' & H2 & Hnew2 & Hold2).
    rewrite Hc2 in Hc2'. injection Hc2' as <-.
    assert (H3 : exists k, 2 <= k /\ fresh_with k c3 /\
                 (forall j, 0 <= j < 2 -> source_at c3 j = source_at c2 j)).
    { destruct Hc3 as [-> | (f' & p' & thr' & Hc3)].
      - exists 2. split; [lia|]. split; [exact H2|]. reflexivity.
      - destruct (add_source_ignore_fresh f' p' thr' MBEDTLS_ENTROPY_SOURCE_STRONG c2 2
                    ltac:(lia) H2) as (c3' & Hc3' & H3 & _ & Hold3).
        rewrite Hc3 in Hc3'. injection Hc3' as <-.
        exists 3. split; [lia|]. split; [exact H3|].
        intros j Hj. apply Hold3. lia. }
    destruct H3 as (k & Hk & (_ & Hcount & _) & Hsame).
    unfold strong_registered. split.
    - intros (j & s & Hj & Hs & Hstrong).
      destruct (Z.lt_ge_cases MBEDTLS_ENTROPY_MAX_SOURCES 2) as [Hsmall|]; [|assumption].
      exfalso. assert (j = 0) as -> by lia.
      rewrite Hsame, Hold2, Hclock in Hs by lia.
      injection Hs as <-. simpl in Hstrong. congruence.
    - intros Hroom. exists 1.
      eexists. split; [lia|]. rewrite Hsame, Hnew2 by lia.
      split; reflexivity. }
  destruct MBEDTLS_HAVEGE_C.
  - destruct (add_source_ignore mbedtls_havege_poll havege_data
                MBEDTLS_ENTROPY_MIN_HAVEGE MBEDTLS_ENTROPY_SOURCE_STRONG (Some c1))
      as [c2|] eqn:Hc2; intros Hinit.
    + eapply Hgen; [exact Hc2|]. right. eauto.
    + discriminate.
  - intros Hinit. eapply Hgen; [exact Hinit|]. left. reflexivity.
Qed.

(** ** Registering on a reachable context *)

Lemma array_ok_forget ctx ctx' :
  source_count ctx' = source_count ctx ->
  forget_size <$> source ctx' = forget_size <$> source ctx ->
  array_ok ctx -> array_ok ctx'.
Proof.
  intros Hc Hf [Hcnt Hlen]. split; [lia|].
  apply (f_equal length) in Hf. rewrite !length_fmap in Hf. lia.
Qed.

Lemma add_source_array_ok ctx f p thr strg ret ctx' :
  mbedtls_entropy_add_source ctx f p thr strg = Some (ret, ctx') ->
  array_ok ctx -> array_ok ctx'.
Proof.
  intros Hadd [Hcnt Hlen]. split; [eapply add_source_count; eauto|].
  revert Hadd. unfold mbedtls_entropy_add_source.
  destruct (source_count ctx >=? MBEDTLS_ENTROPY_MAX_SOURCES); [now intros [= <- <-]|].
  destruct (source_at ctx (source_count ctx)); [|discriminate].
  intros [= <- <-]. cbn. now rewrite length_insert.
Qed.

Lemma reachable_array_ok ctx w : reachable ctx w -> array_ok ctx.
Proof.
  induction 1 as [ctx w Hinit | c ctx w ctx' w' _ IH Hcall].
  - destruct init_fresh_with as (c & Hinit' & Hwf & _).
    rewrite Hinit in Hinit'. injection Hinit' as <-.
    destruct Hwf as ([Hnn _] & Hle & Hlen). split; [lia|assumption].
  - destruct c as [f p thr strg | data len | scratch | output len scratch];
      simpl in Hcall.
    + destruct (mbedtls_entropy_add_source ctx f p thr strg) as [[r c]|] eqn:Ha;
        simpl in Hcall; [|discriminate].
      injection Hcall as <- <-. eapply add_source_array_ok; eauto.
    + injection Hcall as <- <-. unfold mbedtls_entropy_update_manual.
      eapply array_ok_forget; [| |exact IH].
      * apply entropy_update_source_count.
      * now rewrite entropy_update_source.
    + unfold mbedtls_entropy_gather in Hcall.
      destruct (entropy_gather_internal ctx w scratch) as [r|] eqn:Hg;
        simpl in Hcall; [|discriminate].
      injection Hcall as <- <-. apply gather_frame in Hg as (Hc & Hf & _).
      eapply array_ok_forget; eauto.
    + destruct (mbedtls_entropy_func ctx w output len scratch) as [r|] eqn:Hf;
        simpl in Hcall; [|discriminate].
      injection Hcall as <- <-. revert Hf. unfold mbedtls_entropy_func.
      destruct (len >? MBEDTLS_ENTROPY_BLOCK_SIZE); [now intros [= <-]|].
      destruct (gather_until_done _ 0 ctx w scratch) as [[[ret c] w'']|] eqn:Hloop;
        [|discriminate].
      apply gather_until_done_frame in Hloop as (Hc & Hfg & _).
      assert (Hok : array_ok c) by (eapply array_ok_forget; eauto).
      destruct (nonzero ret); intros [= <-]; [exact Hok|].
      eapply array_ok_forget; [| apply reseed_and_output_forget | exact Hok].
      now destruct (reseed_and_output_frame c w'' output len) as (_ & -> & _).
Qed.

(** X4 (registering).  On a context reachable from mbedtls_entropy_init
    that still has room, mbedtls_entropy_add_source returns 0, stores the
    callback, the handle, the threshold and the strength at the index
    equal to the old count, raises the count by one, and leaves every
    other entry, the entry's byte counter and the accumulator alone. *)
Theorem add_source_on_reachable ctx w f p thr strg :
  reachable ctx w ->
  source_count ctx < MBEDTLS_ENTROPY_MAX_SOURCES ->
  exists s ctx',
    source_at ctx (source_count ctx) = Some s /\
    mbedtls_entropy_add_source ctx f p thr strg = Some (0, ctx') /\
    source_count ctx' = source_count ctx + 1 /\
    source_at ctx' (source_count ctx) =
      Some {| f_source := f; p_source := p; size := size s;
              threshold := thr; strong := strg |} /\
    (forall j, j <> source_count ctx -> source_at ctx' j = source_at ctx j) /\
    accumulator_started ctx' = accumulator_started ctx /\
    accumulator ctx' = accumulator ctx.
Proof.
  intros Hreach Hroom. apply reachable_array_ok in Hreach as [Hcnt Hlen].
  destruct (source_at_defined ctx (source_count ctx)) as [s Hs]; [lia|].
  destruct (add_source_registers ctx f p thr strg s Hroom Hs)
    as (ctx' & Hadd & Hc & Hnew & Hold & _ & Hst & Hacc).
  exists s, ctx'. repeat split; assumption.
Qed.

(** ** An empty registry *)

(** X5 (empty registry).  With no source registered, as after
    mbedtls_entropy_free, a round and an extraction of at most one block
    both fail with MBEDTLS_ERR_ENTROPY_NO_SOURCES_DEFINED; no callback is
    called and the context, the world and the output buffer are
    unchanged. *)
Theorem no_sources_defined ctx w output len scratch :
  source_count ctx = 0 ->
  len <= MBEDTLS_ENTROPY_BLOCK_SIZE ->
  mbedtls_entropy_gather ctx w scratch =
    Some {| g_ret := MBEDTLS_ERR_ENTROPY_NO_SOURCES_DEFINED; g_ctx := ctx;
            g_world := w; g_buf := scratch; g_path := NoSources; g_polls := [] |} /\
  mbedtls_entropy_func ctx w output len scratch =
    Some {| f_ret := MBEDTLS_ERR_ENTROPY_NO_SOURCES_DEFINED; f_ctx := ctx;
            f_world := w; f_output := output |} /\
  error_of_code MBEDTLS_ERR_ENTROPY_NO_SOURCES_DEFINED = Some NoSourcesDefined.
Proof.
  intros Hc Hlen.
  assert (Hg : entropy_gather_internal ctx w scratch =
    Some {| g_ret := MBEDTLS_ERR_ENTROPY_NO_SOURCES_DEFINED; g_ctx := ctx;
            g_world := w; g_buf := scratch; g_path := NoSources; g_polls := [] |}).
  { unfold entropy_gather_internal. now rewrite Hc. }
  split; [exact Hg|]. split; [|apply error_of_code_values].
  unfold mbedtls_entropy_func.
  destruct (Z.gtb_spec len MBEDTLS_ENTROPY_BLOCK_SIZE); [lia|].
  change (Z.to_nat (ENTROPY_MAX_LOOP + 2)) with 258%nat.
  cbn [gather_until_done]. change (0 >? ENTROPY_MAX_LOOP) with false. cbv iota.
  rewrite Hg. cbn [g_ret g_ctx g_world].
  destruct (nonzero MBEDTLS_ERR_ENTROPY_NO_SOURCES_DEFINED) eqn:Hnz.
  - now rewrite Hnz.
  - apply nonzero_false in Hnz. now destruct ERR_NO_SOURCES_DEFINED_nonzero.
Qed.

(** ** The counters after a round that runs to its end *)



(** ** A round aborted by a failing mix step *)



Lemma thresholds_done_ext ctx ctx' n i d :
  source ctx' = source ctx ->
  thresholds_done n i ctx' d = thresholds_done n i ctx d.
Proof.
  intros Hsrc. revert i d. induction n as [|n IH]; intros i d; simpl; [reflexivity|].
  assert (Hat : source_at ctx' i = source_at ctx i)
    by (unfold source_at; now rewrite Hsrc).
  rewrite Hat. destruct (source_at ctx i); [apply IH | reflexivity].
Qed.

(** X8 (manual update).  A manual update, whatever its outcome, leaves the
    registry as it is: no source is added, and no byte is counted towards
    any threshold. *)
Theorem update_manual_counts_nothing ctx data len :
  let ctx' := snd (mbedtls_entropy_update_manual ctx data len) in
  source ctx' = source ctx /\
  source_count ctx' = source_count ctx /\
  thresholds_met ctx' = thresholds_met ctx.
Proof.
  cbv zeta. unfold mbedtls_entropy_update_manual.
  pose proof (entropy_update_source ctx (to_uchar MBEDTLS_ENTROPY_SOURCE_MANUAL) data len)
    as Hsrc.
  pose proof (entropy_update_source_count ctx (to_uchar MBEDTLS_ENTROPY_SOURCE_MANUAL)
                data len) as Hcnt.
  split; [assumption|]. split; [assumption|].
  unfold thresholds_met. rewrite Hcnt. now apply thresholds_done_ext.
Qed.

(** ** A successful extraction *)

Lemma gather_until_done_ok fuel count ctx w scratch c w' :
  gather_until_done fuel count ctx w scratch = Some (0, c, w') ->
  exists n d, (1 <= n)%nat /\ Z.of_nat n + count <= 257 /\
              gather_rounds n ctx w scratch = Some (c, w') /\
              thresholds_met c = Some d /\ d <> 0.
Proof.
  revert count ctx w. induction fuel as [|fuel IH]; intros count ctx w; simpl.
  - discriminate.
  - destruct (Z.gtb_spec count ENTROPY_MAX_LOOP) as [Hover|Hunder].
    { intros [= Hz _ _]. now destruct ERR_SOURCE_FAILED_nonzero. }
    destruct (entropy_gather_internal ctx w scratch) as [r|] eqn:Hg; [|discriminate].
    destruct (nonzero (g_ret r)) eqn:Hnz.
    { intros [= Hz _ _]. apply nonzero_true in Hnz. contradiction. }
    apply nonzero_false in Hnz.
    destruct (thresholds_done _ 0 (g_ctx r) 1) as [done|] eqn:Hdone; [|discriminate].
    unfold ENTROPY_MAX_LOOP in Hunder.
    destruct (Z.eqb_spec done 0) as [Hd|Hd].
    + intros Hrec. destruct (IH _ _ _ Hrec) as (n & d & Hn & Hbound & Hrounds & Hmet & Hdz).
      exists (S n), d. split; [lia|]. split; [lia|].
      split; [|auto]. now rewrite (gather_rounds_S _ _ _ _ _ Hg Hnz).
    + intros [= <- <-]. exists 1%nat, done. split; [lia|]. split; [lia|].
      split; [|auto]. simpl. rewrite Hg, Hnz. reflexivity.
Qed.

Lemma entropy_func_ok ctx w output len scratch res :
  mbedtls_entropy_func ctx w output len scratch = Some res ->
  f_ret res = 0 ->
  exists n c d,
    (1 <= n <= 257)%nat /\
    gather_rounds n ctx w scratch = Some (c, f_world res) /\
    thresholds_met c = Some d /\ d <> 0 /\
    source_count c = source_count ctx /\
    res = reseed_and_output c (f_world res) output len /\
    len <= MBEDTLS_ENTROPY_BLOCK_SIZE.
Proof.
  unfold mbedtls_entropy_func.
  destruct (Z.gtb_spec len MBEDTLS_ENTROPY_BLOCK_SIZE) as [Hbig|Hlen].
  { intros [= <-]. simpl. intros Hz. now destruct ERR_SOURCE_FAILED_nonzero. }
  destruct (gather_until_done _ 0 ctx w scratch) as [[[ret c] w']|] eqn:Hloop;
    [|discriminate].
  destruct (nonzero ret) eqn:Hnz.
  { intros [= <-]. simpl. apply nonzero_true in Hnz. contradiction. }
  apply nonzero_false in Hnz. subst ret.
  pose proof (gather_until_done_frame _ _ _ _ _ _ _ _ Hloop) as (Hc & _).
  apply gather_until_done_ok in Hloop as (n & d & Hn & Hbound & Hrounds & Hmet & Hd).
  intros [= <-] Hret.
  destruct (reseed_and_output_frame c w' output len) as (_ & _ & Hw & _).
  exists n, c, d. rewrite Hw. repeat split; try assumption; lia.
Qed.

Lemma reseed_and_output_ok ctx w output len :
  f_ret (reseed_and_output ctx w output len) = 0 ->
  let digest := snd (sha_finish_ret (accumulator ctx)) in
  accumulator (f_ctx (reseed_and_output ctx w output len)) =
    snd (sha_update_ret (snd (sha_starts_ret sha_init 0))
           (mem_read digest MBEDTLS_ENTROPY_BLOCK_SIZE)) /\
  f_output (reseed_and_output ctx w output len) =
    memcpy output (snd (sha_ret (mem_read digest MBEDTLS_ENTROPY_BLOCK_SIZE) 0)) len.
Proof.
  unfold reseed_and_output.
  destruct (sha_finish_ret (accumulator ctx)) as [[r1 acc1] digest]. simpl snd.
  destruct (nonzero r1) eqn:H1; [simpl; intros Hz; apply nonzero_true in H1; contradiction|].
  destruct (sha_starts_ret sha_init 0) as [r2 acc2]. simpl snd.
  destruct (nonzero r2) eqn:H2; [simpl; intros Hz; apply nonzero_true in H2; contradiction|].
  destruct (sha_update_ret acc2 _) as [r3 acc3]. simpl snd.
  destruct (nonzero r3) eqn:H3; [simpl; intros Hz; apply nonzero_true in H3; contradiction|].
  destruct (sha_ret _ 0) as [r4 out]. simpl snd.
  destruct (nonzero r4) eqn:H4; [simpl; intros Hz; apply nonzero_true in H4; contradiction|].
  simpl. auto.
Qed.

(** X9 (thresholds).  An extraction succeeds only after at least one and
    at most 257 rounds that all returned 0, and only when, after the last
    of them, no registered source is below its threshold. *)
Theorem entropy_func_needs_thresholds ctx w output len scratch res :
  mbedtls_entropy_func ctx w output len scratch = Some res ->
  f_ret res = 0 ->
  exists n c,
    (1 <= n <= 257)%nat /\
    gather_rounds n ctx w scratch = Some (c, f_world res) /\
    forall j s, 0 <= j < source_count ctx -> source_at c j = Some s ->
                threshold s <= size s.
Proof.
  intros Hf Hret.
  destruct (entropy_func_ok _ _ _ _ _ _ Hf Hret)
    as (n & c & d & Hn & Hrounds & Hmet & Hd & Hc & _).
  exists n, c. split; [assumption|]. split; [assumption|].
  intros j s Hj Hs.
  destruct (Z.lt_ge_cases (size s) (threshold s)) as [Hbelow|]; [|assumption].
  exfalso. apply Hd. unfold thresholds_met in Hmet.
  apply (thresholds_done_below _ _ _ _ _ Hmet); [lia|].
  exists j, s. rewrite Hc. repeat split; try assumption; lia.
Qed.

(** X10 (reseeding).  After a successful extraction the accumulator is a
    freshly started hash context that has absorbed one block: the digest
    of everything mixed in before.  The bytes handed out are the first
    [len] bytes of the hash of that same digest, so they are not the
    digest itself. *)
Theorem entropy_func_feeds_forward ctx w output len scratch res :
  mbedtls_entropy_func ctx w output len scratch = Some res ->
  f_ret res = 0 ->
  exists n c,
    gather_rounds n ctx w scratch = Some (c, f_world res) /\
    let digest := snd (sha_finish_ret (accumulator c)) in
    accumulator (f_ctx res) =
      snd (sha_update_ret (snd (sha_starts_ret sha_init 0))
             (mem_read digest MBEDTLS_ENTROPY_BLOCK_SIZE)) /\
    f_output res =
      memcpy output (snd (sha_ret (mem_read digest MBEDTLS_ENTROPY_BLOCK_SIZE) 0)) len.
Proof.
  intros Hf Hret.
  destruct (entropy_func_ok _ _ _ _ _ _ Hf Hret)
    as (n & c & d & _ & Hrounds & _ & _ & _ & Hres & _).
  exists n, c. split; [assumption|].
  pose proof (reseed_and_output_ok c (f_world res) output len) as Hok.
  rewrite <- Hres in Hok. exact (Hok Hret).
Qed.

(** X11 (output buffer).  Provided the hash primitive fills a whole block,
    the extraction writes the output buffer only when it returns 0, and
    then only its first [len] bytes: the bytes after them, and the length
    of the buffer, are what they were. *)
Theorem entropy_func_output_window ctx w output len scratch res :
  (forall d f, length (snd (sha_ret d f)) = Z.to_nat MBEDTLS_ENTROPY_BLOCK_SIZE) ->
  0 <= len ->
  mbedtls_entropy_func ctx w output len scratch = Some res ->
  (f_ret res <> 0 -> f_output res = output) /\
  drop (Z.to_nat len) (f_output res) = drop (Z.to_nat len) output /\
  (len <= Z.of_nat (length output) -> length (f_output res) = length output).
Proof.
  intros Hhash Hlen Hf.
  pose proof (entropy_func_frame _ _ _ _ _ _ Hf) as (_ & _ & Hfail).
  split; [exact Hfail|].
  destruct (Z.eq_dec (f_ret res) 0) as [Hret|Hret].
  - destruct (entropy_func_ok _ _ _ _ _ _ Hf Hret)
      as (n & c & d & _ & _ & _ & _ & _ & Hres & Hblock).
    pose proof (reseed_and_output_ok c (f_world res) output len) as Hok.
    rewrite <- Hres in Hok. destruct (Hok Hret) as [_ Hout].
    rewrite Hout. unfold memcpy.
    set (out := snd (sha_ret _ 0)).
    assert (Hout_len : length (take (Z.to_nat len) out) = Z.to_nat len).
    { rewrite length_take. subst out. rewrite Hhash. lia. }
    split.
    + now rewrite drop_app_length'.
    + intros Hfit. rewrite length_app, Hout_len, length_drop. lia.
  - rewrite (Hfail Hret). auto.
Qed.

End MoreProperties.

(** * Properties of the macros of asn1.h *)

Lemma memcmp_zero n (a b : bytes) :
  (n <= length a)%nat -> (n <= length b)%nat ->
  memcmp a b n = 0 <-> take n a = take n b.
Proof.
  revert a b. induction n as [|n IH]; intros [|x a] [|y b] Ha Hb; simpl in *;
    try lia; try tauto.
  destruct (Z.eqb_spec x y) as [->|Hne].
  - rewrite IH by lia. split; [congruence | now intros [= ->]].
  - split; [lia | intros [= Hxy _]; contradiction].
Qed.

(** X12 (OID comparison).  For a buffer whose [len] is the number of bytes
    behind [p], TTLS_OID_CMP is 0 exactly when the buffer holds the bytes
    of the reference OID, and 1 otherwise (the sense of memcmp: zero
    means equal). *)
Theorem TTLS_OID_CMP_zero (oid_str : bytes) (oid_buf : Asn1.ttls_asn1_buf) :
  Z.of_nat (length (Asn1.p oid_buf)) = Asn1.len oid_buf ->
  (Asn1.TTLS_OID_CMP oid_str oid_buf = 0 <-> Asn1.p oid_buf = oid_str) /\
  (Asn1.TTLS_OID_CMP oid_str oid_buf = 0 \/ Asn1.TTLS_OID_CMP oid_str oid_buf = 1).
Proof.
  intros Hlen. unfold Asn1.TTLS_OID_CMP, Asn1.TTLS_OID_SIZE, ne0.
  destruct (Z.eqb_spec (Z.of_nat (length oid_str) + 1 - 1) (Asn1.len oid_buf))
    as [Hsame|Hdiff]; simpl.
  - assert (Hn : Z.to_nat (Asn1.len oid_buf) = length oid_str) by lia.
    assert (Hp : length (Asn1.p oid_buf) = length oid_str) by lia.
    rewrite Hn.
    pose proof (memcmp_zero (length oid_str) oid_str (Asn1.p oid_buf)
                  ltac:(lia) ltac:(lia)) as Hcmp.
    rewrite take_ge in Hcmp by lia. rewrite (take_ge (Asn1.p oid_buf)) in Hcmp by lia.
    destruct (Z.eqb_spec (memcmp oid_str (Asn1.p oid_buf) (length oid_str)) 0) as [Hz|Hnz].
    + split; [|auto]. split; [intros _; symmetry; now apply Hcmp | reflexivity].
    + split; [|auto]. split; [discriminate|].
      intros Heq. exfalso. apply Hnz. apply Hcmp. congruence.
  - split; [|auto]. split; [discriminate|].
    intros Heq. exfalso. apply Hdiff. rewrite <- Heq in *. lia.
Qed.

(** X13 (tag octet).  The three masks of asn1.h cut every tag octet into
    disjoint parts that together give the octet back: class, the
    primitive/constructed bit and the tag number. *)
Theorem asn1_tag_masks_partition (t : Z) :
  0 <= t < 256 ->
  Z.lor (Z.land t Asn1.TTLS_ASN1_TAG_CLASS_MASK)
    (Z.lor (Z.land t Asn1.TTLS_ASN1_TAG_PC_MASK)
           (Z.land t Asn1.TTLS_ASN1_TAG_VALUE_MASK)) = t /\
  Z.land (Z.land t Asn1.TTLS_ASN1_TAG_CLASS_MASK) (Z.land t Asn1.TTLS_ASN1_TAG_PC_MASK) = 0 /\
  Z.land (Z.land t Asn1.TTLS_ASN1_TAG_CLASS_MASK) (Z.land t Asn1.TTLS_ASN1_TAG_VALUE_MASK) = 0 /\
  Z.land (Z.land t Asn1.TTLS_ASN1_TAG_PC_MASK) (Z.land t Asn1.TTLS_ASN1_TAG_VALUE_MASK) = 0.
Proof.
  intros Ht.
  assert (Hmasks :
    Z.lor Asn1.TTLS_ASN1_TAG_CLASS_MASK
      (Z.lor Asn1.TTLS_ASN1_TAG_PC_MASK Asn1.TTLS_ASN1_TAG_VALUE_MASK) = Z.ones 8)
    by reflexivity.
  assert (Hsmall : Z.land t (Z.ones 8) = t)
    by (rewrite Z.land_ones by lia; apply Z.mod_small; lia).
  split; [|split; [|split]].
  - rewrite <- !Z.land_lor_distr_r, Hmasks. exact Hsmall.
  - rewrite Z.land_assoc, <- (Z.land_assoc t _ t), (Z.land_comm _ t), Z.land_assoc,
      Z.land_diag, <- Z.land_assoc. change (Z.land Asn1.TTLS_ASN1_TAG_CLASS_MASK
      Asn1.TTLS_ASN1_TAG_PC_MASK) with 0. apply Z.land_0_r.
  - rewrite Z.land_assoc, <- (Z.land_assoc t _ t), (Z.land_comm _ t), Z.land_assoc,
      Z.land_diag, <- Z.land_assoc. change (Z.land Asn1.TTLS_ASN1_TAG_CLASS_MASK
      Asn1.TTLS_ASN1_TAG_VALUE_MASK) with 0. apply Z.land_0_r.
  - rewrite Z.land_assoc, <- (Z.land_assoc t _ t), (Z.land_comm _ t), Z.land_assoc,
      Z.land_diag, <- Z.land_assoc. change (Z.land Asn1.TTLS_ASN1_TAG_PC_MASK
      Asn1.TTLS_ASN1_TAG_VALUE_MASK) with 0. apply Z.land_0_r.
Qed.

(** * Properties of the self tests *)

Lemma land_byte_255 a b :
  0 <= a <= 255 -> 0 <= b <= 255 ->
  Z.land a b = 255 <-> a = 255 /\ b = 255.
Proof.
  intros Ha Hb. split; [|now intros [-> ->]].
  intros Hab.
  assert (Hsmall : forall x, 0 <= x <= 255 -> Z.land 255 x = x).
  { intros x Hx. rewrite Z.land_comm. change 255 with (Z.ones 8).
    rewrite Z.land_ones by lia. apply Z.mod_small. lia. }
  split.
  - rewrite <- (Hsmall a Ha), <- Hab.
    now rewrite (Z.land_comm a b), <- Z.land_assoc, Z.land_diag, Z.land_comm.
  - rewrite <- (Hsmall b Hb), <- Hab.
    now rewrite <- Z.land_assoc, Z.land_diag.
Qed.

Lemma land_byte_range a b : 0 <= a <= 255 -> 0 <= b -> 0 <= Z.land a b <= 255.
Proof.
  intros Ha Hb.
  assert (Hmask : Z.land (Z.land a b) (Z.ones 8) = Z.land a b).
  { rewrite (Z.land_comm a b), <- Z.land_assoc. f_equal.
    rewrite Z.land_ones by lia. apply Z.mod_small. lia. }
  rewrite Z.land_ones in Hmask by lia.
  pose proof (Z.mod_pos_bound (Z.land a b) (2 ^ 8) ltac:(lia)). lia.
Qed.

Lemma check_bits_loop_spec buf n set unset :
  0 <= set <= 255 ->
  Forall (fun b => 0 <= b <= 255) buf ->
  (fst (check_bits_loop buf n set unset) = 255 <->
   set = 255 /\ Forall (fun b => b = 255) (take n buf)) /\
  (snd (check_bits_loop buf n set unset) = 0 <->
   unset = 0 /\ Forall (fun b => b = 0) (take n buf)).
Proof.
  assert (Hnil : forall x y : Z, (x = y <-> x = y /\ Forall (fun b => b = y) []))
    by (intros x y; split; [intros ->; split; [reflexivity|constructor] | tauto]).
  revert buf set unset. induction n as [|n IH]; intros [|b buf] set unset Hset Hbuf;
    simpl; try (split; apply Hnil).
  apply Forall_cons in Hbuf as [Hb Hbuf]. cbv beta in Hb.
  destruct (IH buf (Z.land set b) (Z.lor unset b)
              (land_byte_range set b Hset ltac:(lia)) Hbuf) as [Hfst Hsnd].
  rewrite Hfst, Hsnd, land_byte_255, Z.lor_eq_0_iff, !Forall_cons by lia.
  tauto.
Qed.

Lemma check_bits_one (buf : bytes) (buf_len : Z) :
  Forall (fun b => 0 <= b <= 255) buf ->
  mbedtls_entropy_source_self_test_check_bits buf buf_len = 1 <->
  Forall (fun b => b = 255) (mem_read buf buf_len) \/
  Forall (fun b => b = 0) (mem_read buf buf_len).
Proof.
  intros Hbuf. unfold mbedtls_entropy_source_self_test_check_bits, mem_read.
  destruct (check_bits_loop_spec buf (Z.to_nat buf_len) 255 0 ltac:(lia) Hbuf)
    as [Hset Hunset].
  destruct (check_bits_loop buf (Z.to_nat buf_len) 255 0) as [set unset].
  simpl in Hset, Hunset.
  destruct (Z.eqb_spec set 255) as [H1|H1]; destruct (Z.eqb_spec unset 0) as [H0|H0];
    simpl; split; try discriminate; try tauto.
Qed.

Lemma check_bits_0_or_1 (buf : bytes) (buf_len : Z) :
  mbedtls_entropy_source_self_test_check_bits buf buf_len = 0 \/
  mbedtls_entropy_source_self_test_check_bits buf buf_len = 1.
Proof.
  unfold mbedtls_entropy_source_self_test_check_bits.
  destruct (check_bits_loop _ _ _ _) as [set unset].
  destruct (_ || _); auto.
Qed.

(** X14 (bit check).  On a buffer of bytes,
    mbedtls_entropy_source_self_test_check_bits returns 1 exactly when
    the first [buf_len] bytes are all 0xFF or all 0x00, and 0 otherwise.
    An empty sample is reported (1) as well. *)
Theorem check_bits_uniform (buf : bytes) (buf_len : Z) :
  Forall (fun b => 0 <= b <= 255) buf ->
  (mbedtls_entropy_source_self_test_check_bits buf buf_len = 1 <->
   Forall (fun b => b = 255) (mem_read buf buf_len) \/
   Forall (fun b => b = 0) (mem_read buf buf_len)) /\
  (mbedtls_entropy_source_self_test_check_bits buf buf_len <> 1 ->
   mbedtls_entropy_source_self_test_check_bits buf buf_len = 0) /\
  mbedtls_entropy_source_self_test_check_bits [] 0 = 1.
Proof.
  intros Hbuf. split; [now apply check_bits_one|]. split; [|reflexivity].
  destruct (check_bits_0_or_1 buf buf_len); [auto | contradiction].
Qed.

Section SelfTestProperties.
Context {EH : EntropyH} {SH : Sha} {PF : Platform} {EP : EntropyPoll}
        {HP : HardwarePoll}.

Lemma self_test_gather_loop_outcome attempts buf buf_len el olen w polls :
  let res := self_test_gather_loop attempts buf buf_len el olen w polls in
  exists evs,
    stg_polls res = polls ++ evs /\ (length evs <= attempts)%nat /\
    ((stg_ret res = 0 /\ buf_len <= stg_entropy_len res /\
      Forall (fun e => ev_ret e = 0) evs) \/
     (stg_ret res = 1 /\ stg_entropy_len res < buf_len /\
      Forall (fun e => ev_ret e = 0) evs /\ length evs = attempts) \/
     (exists evs' e, evs = evs' ++ [e] /\ Forall (fun e => ev_ret e = 0) evs' /\
                     ev_ret e = stg_ret res /\ stg_ret res <> 0)).
Proof.
  revert buf el olen w polls.
  induction attempts as [|attempts IH]; intros buf el olen w polls; simpl.
  - exists []. rewrite app_nil_r. split; [reflexivity|]. split; [simpl; lia|].
    destruct (Z.ltb_spec el buf_len); simpl; [right; left | left]; auto.
  - destruct (Z.ltb_spec el buf_len) as [Hlt|Hge].
    + destruct (mbedtls_hardware_poll_from olen NULL (drop (Z.to_nat el) buf)
                  (buf_len - el) w) as [r w'].
      destruct (nonzero (poll_ret r)) eqn:Hnz.
      * apply nonzero_true in Hnz. exists [poll_event_of el r]. simpl.
        split; [reflexivity|]. split; [lia|]. right. right.
        exists [], (poll_event_of el r). auto.
      * apply nonzero_false in Hnz.
        destruct (IH (take (Z.to_nat el) buf ++ poll_output r)
                    (size_t_add el (poll_olen r)) (poll_olen r) w'
                    (polls ++ [poll_event_of el r]))
          as (evs & Hpolls & Hlen & Hcases).
        exists (poll_event_of el r :: evs). rewrite Hpolls, <- app_assoc.
        split; [reflexivity|]. split; [simpl; lia|].
        destruct Hcases as [(H0 & Hfull & Hall) | [(H1 & Hshort & Hall & Hn)
                           | (evs' & e & -> & Hall & He & Hne)]].
        -- left. auto.
        -- right. left. repeat split; auto. simpl. lia.
        -- right. right. exists (poll_event_of el r :: evs'), e. auto.
    + exists []. rewrite app_nil_r. split; [reflexivity|]. split; [simpl; lia|].
      left. simpl. destruct (Z.ltb_spec el buf_len); [lia|]. auto.
Qed.

(** X15 (sampling loop).  mbedtls_entropy_source_self_test_gather calls
    the hardware callback at most [buf_len] times.  It returns 0 only
    when every call returned 0 and at least [buf_len] bytes were reported;
    it returns 1 when [buf_len] calls all returned 0 and still too few
    bytes were reported; otherwise it returns the nonzero value of the
    first failing call, which is also the last call made. *)
Theorem self_test_gather_outcome buf buf_len w :
  let res := mbedtls_entropy_source_self_test_gather buf buf_len w in
  (length (stg_polls res) <= Z.to_nat buf_len)%nat /\
  ((stg_ret res = 0 /\ buf_len <= stg_entropy_len res /\
    Forall (fun e => ev_ret e = 0) (stg_polls res)) \/
   (stg_ret res = 1 /\ stg_entropy_len res < buf_len /\
    Forall (fun e => ev_ret e = 0) (stg_polls res) /\
    length (stg_polls res) = Z.to_nat buf_len) \/
   (exists evs e, stg_polls res = evs ++ [e] /\
                  Forall (fun e => ev_ret e = 0) evs /\
                  ev_ret e = stg_ret res /\ stg_ret res <> 0)).
Proof.
  unfold mbedtls_entropy_source_self_test_gather.
  destruct (self_test_gather_loop_outcome (Z.to_nat buf_len) buf buf_len 0 0 w [])
    as (evs & Hpolls & Hlen & Hcases).
  simpl in Hpolls. cbv zeta. rewrite Hpolls. split; assumption.
Qed.

Lemma self_test_gather_loop_fills attempts buf buf_len el olen w polls :
  (forall o h b l w', 0 < l ->
     poll_ret (fst (mbedtls_hardware_poll_from o h b l w')) = 0 /\
     0 < poll_olen (fst (mbedtls_hardware_poll_from o h b l w')) <= l) ->
  buf_len < 2 ^ 64 -> 0 <= el <= buf_len ->
  buf_len - el <= Z.of_nat attempts ->
  let res := self_test_gather_loop attempts buf buf_len el olen w polls in
  stg_ret res = 0 /\ stg_entropy_len res = buf_len.
Proof.
  intros Hpoll Hmax. revert buf el olen w polls.
  induction attempts as [|attempts IH]; intros buf el olen w polls Hel Hleft; simpl.
  - destruct (Z.ltb_spec el buf_len); simpl; lia.
  - destruct (Z.ltb_spec el buf_len) as [Hlt|Hge].
    + specialize (Hpoll olen NULL (drop (Z.to_nat el) buf) (buf_len - el) w ltac:(lia)).
      destruct (mbedtls_hardware_poll_from olen NULL (drop (Z.to_nat el) buf)
                  (buf_len - el) w) as [r w'].
      simpl in Hpoll. destruct Hpoll as [Hret Holen]. rewrite Hret. simpl.
      assert (Hadd : size_t_add el (poll_olen r) = el + poll_olen r).
      { unfold size_t_add. apply Z.mod_small. lia. }
      rewrite Hadd. apply IH; lia.
    + simpl. destruct (Z.ltb_spec el buf_len); simpl; lia.
Qed.

(** X16 (sampling loop, a source that delivers).  If every call of the
    hardware callback succeeds and reports at least one byte and no more
    than it was asked for, the sampling loop returns 0 with exactly
    [buf_len] bytes reported. *)
Theorem self_test_gather_fills buf buf_len w :
  (forall o h b l w', 0 < l ->
     poll_ret (fst (mbedtls_hardware_poll_from o h b l w')) = 0 /\
     0 < poll_olen (fst (mbedtls_hardware_poll_from o h b l w')) <= l) ->
  0 <= buf_len < 2 ^ 64 ->
  stg_ret (mbedtls_entropy_source_self_test_gather buf buf_len w) = 0 /\
  stg_entropy_len (mbedtls_entropy_source_self_test_gather buf buf_len w) = buf_len.
Proof.
  intros Hpoll Hlen. unfold mbedtls_entropy_source_self_test_gather.
  apply self_test_gather_loop_fills; try assumption; lia.
Qed.



Lemma ne0_zero x : ne0 x = 0 <-> x = 0.
Proof. unfold ne0. destruct (Z.eqb_spec x 0); split; try lia; discriminate. Qed.

Lemma ne0_0_or_1 x : ne0 x = 0 \/ ne0 x = 1.
Proof. unfold ne0. destruct (x =? 0); auto. Qed.

Lemma self_test_gather_loop_buf attempts buf buf_len el olen w polls :
  (forall o h b l w', Z.of_nat (length b) = l -> Forall (fun x => 0 <= x <= 255) b ->
     length (poll_output (fst (mbedtls_hardware_poll_from o h b l w'))) = length b /\
     Forall (fun x => 0 <= x <= 255)
       (poll_output (fst (mbedtls_hardware_poll_from o h b l w')))) ->
  Z.of_nat (length buf) = buf_len -> 0 <= el ->
  Forall (fun x => 0 <= x <= 255) buf ->
  let res := self_test_gather_loop attempts buf buf_len el olen w polls in
  length (stg_buf res) = length buf /\ Forall (fun x => 0 <= x <= 255) (stg_buf res).
Proof.
  intros Hwb. revert buf el olen w polls.
  induction attempts as [|attempts IH]; intros buf el olen w polls Hlen Hel Hbuf;
    simpl; [auto|].
  destruct (Z.ltb_spec el buf_len) as [Hlt|]; [|auto].
  specialize (Hwb olen NULL (drop (Z.to_nat el) buf) (buf_len - el) w
                ltac:(rewrite length_drop; lia) (Forall_drop _ _ _ Hbuf)).
  destruct (mbedtls_hardware_poll_from olen NULL (drop (Z.to_nat el) buf)
              (buf_len - el) w) as [r w'].
  simpl in Hwb. destruct Hwb as [Hout Hbytes].
  assert (Hnew_len : length (take (Z.to_nat el) buf ++ poll_output r) = length buf).
  { rewrite length_app, length_take, Hout, length_drop. lia. }
  assert (Hnew : Forall (fun x => 0 <= x <= 255) (take (Z.to_nat el) buf ++ poll_output r)).
  { apply Forall_app. split; [now apply Forall_take | assumption]. }
  destruct (nonzero (poll_ret r)); simpl; [auto|].
  destruct (IH (take (Z.to_nat el) buf ++ poll_output r)
              (size_t_add el (poll_olen r)) (poll_olen r) w'
              (polls ++ [poll_event_of el r])) as [Hl Hb]; try assumption.
  - lia.
  - unfold size_t_add. apply Z.mod_pos_bound. lia.
  - split; [congruence | assumption].
Qed.

(** X18 (source self test).  With a hardware callback that writes bytes
    and keeps within the buffer whose length it is told,
    mbedtls_entropy_source_self_test returns 0 exactly when both
    16-byte samples are gathered without error, neither of them is all
    0x00 or all 0xFF, and the two samples differ; in every other case it
    returns 1, whatever value a failing callback returned. *)
Theorem source_self_test_verdict verbose w :
  (forall o h b l w', Z.of_nat (length b) = l -> Forall (fun x => 0 <= x <= 255) b ->
     length (poll_output (fst (mbedtls_hardware_poll_from o h b l w'))) = length b /\
     Forall (fun x => 0 <= x <= 255)
       (poll_output (fst (mbedtls_hardware_poll_from o h b l w')))) ->
  let zeros := replicate (Z.to_nat SELF_TEST_SAMPLE) 0 in
  let g0 := mbedtls_entropy_source_self_test_gather zeros SELF_TEST_SAMPLE w in
  let g1 := mbedtls_entropy_source_self_test_gather zeros SELF_TEST_SAMPLE (stg_world g0) in
  let uniform (b : bytes) := Forall (fun x => x = 255) b \/ Forall (fun x => x = 0) b in
  (fst (mbedtls_entropy_source_self_test verbose w) = 0 <->
   stg_ret g0 = 0 /\ stg_ret g1 = 0 /\
   ~ uniform (stg_buf g0) /\ ~ uniform (stg_buf g1) /\ stg_buf g0 <> stg_buf g1) /\
  (fst (mbedtls_entropy_source_self_test verbose w) <> 0 ->
   fst (mbedtls_entropy_source_self_test verbose w) = 1).
Proof.
  intros Hwb zeros g0 g1 uniform.
  assert (Hzeros : Forall (fun x => 0 <= x <= 255) zeros)
    by (apply Forall_replicate; lia).
  assert (Hzlen : length zeros = 16%nat) by reflexivity.
  destruct (self_test_gather_loop_buf (Z.to_nat SELF_TEST_SAMPLE) zeros
              SELF_TEST_SAMPLE 0 0 w [] Hwb eq_refl ltac:(lia) Hzeros) as [Hl0 Hb0].
  destruct (self_test_gather_loop_buf (Z.to_nat SELF_TEST_SAMPLE) zeros
              SELF_TEST_SAMPLE 0 0 (stg_world g0) [] Hwb eq_refl ltac:(lia) Hzeros)
    as [Hl1 Hb1].
  fold (mbedtls_entropy_source_self_test_gather zeros SELF_TEST_SAMPLE w) in Hl0, Hb0.
  fold (mbedtls_entropy_source_self_test_gather zeros SELF_TEST_SAMPLE (stg_world g0))
    in Hl1, Hb1.
  fold g0 in Hl0, Hb0. fold g1 in Hl1, Hb1.
  pose proof (check_bits_one (stg_buf g0) SELF_TEST_SAMPLE Hb0) as Hc0.
  pose proof (check_bits_one (stg_buf g1) SELF_TEST_SAMPLE Hb1) as Hc1.
  unfold mem_read in Hc0, Hc1.
  rewrite take_ge in Hc0 by (rewrite Hl0, Hzlen; reflexivity).
  rewrite take_ge in Hc1 by (rewrite Hl1, Hzlen; reflexivity).
  pose proof (memcmp_zero (Z.to_nat SELF_TEST_SAMPLE) (stg_buf g0) (stg_buf g1)) as Hcmp.
  rewrite !take_ge in Hcmp by (rewrite ?Hl0, ?Hl1, Hzlen; reflexivity).
  specialize (Hcmp ltac:(rewrite Hl0, Hzlen; reflexivity)
                   ltac:(rewrite Hl1, Hzlen; reflexivity)).
  unfold mbedtls_entropy_source_self_test. fold zeros. fold g0. fold g1.
  destruct (nonzero (stg_ret g0)) eqn:Hr0.
  { apply nonzero_true in Hr0. simpl. split.
    - rewrite ne0_zero. tauto.
    - intros _. unfold ne0. destruct (Z.eqb_spec (stg_ret g0) 0); [contradiction|reflexivity]. }
  apply nonzero_false in Hr0.
  destruct (nonzero (stg_ret g1)) eqn:Hr1.
  { apply nonzero_true in Hr1. simpl. split.
    - rewrite ne0_zero. tauto.
    - intros _. unfold ne0. destruct (Z.eqb_spec (stg_ret g1) 0); [contradiction|reflexivity]. }
  apply nonzero_false in Hr1.
  destruct (check_bits_0_or_1 (stg_buf g0) SELF_TEST_SAMPLE) as [Hk0|Hk0]; rewrite Hk0.
  2:{ simpl. split; [|auto]. split; [discriminate|].
      intros (_ & _ & Hn0 & _). exfalso. apply Hn0. apply Hc0. exact Hk0. }
  destruct (check_bits_0_or_1 (stg_buf g1) SELF_TEST_SAMPLE) as [Hk1|Hk1]; rewrite Hk1.
  2:{ simpl. split; [|auto]. split; [discriminate|].
      intros (_ & _ & _ & Hn1 & _). exfalso. apply Hn1. apply Hc1. exact Hk1. }
  simpl.
  assert (Hu0 : ~ uniform (stg_buf g0)) by (intros Hu; apply Hc0 in Hu; lia).
  assert (Hu1 : ~ uniform (stg_buf g1)) by (intros Hu; apply Hc1 in Hu; lia).
  destruct (Z.eqb_spec (memcmp (stg_buf g0) (stg_buf g1) (Z.to_nat SELF_TEST_SAMPLE)) 0)
    as [Hsame|Hdiff]; simpl.
  - split; [|auto]. split; [discriminate|].
    intros (_ & _ & _ & _ & Hne). exfalso. apply Hne. now apply Hcmp.
  - split; [|intros Hne; contradiction]. split; [|reflexivity].
    intros _. repeat split; try assumption.
    intros Heq. apply Hdiff. now apply Hcmp.
Qed.

(** X19 (self test without default sources).  In a build without default
    sources mbedtls_entropy_self_test fails (returns 1) at its first
    round, before any callback is called. *)
Theorem entropy_self_test_needs_defaults verbose w scratch :
  MBEDTLS_NO_DEFAULT_ENTROPY_SOURCES = true ->
  mbedtls_entropy_self_test verbose w scratch = Some (1, w).
Proof.
  intros Hnone. unfold mbedtls_entropy_self_test, mbedtls_entropy_init.
  rewrite Hnone. unfold mbedtls_entropy_gather, entropy_gather_internal.
  cbn [source_count Z.eqb g_ret g_world].
  destruct (nonzero MBEDTLS_ERR_ENTROPY_NO_SOURCES_DEFINED) eqn:Hnz.
  - apply nonzero_true in Hnz. unfold ne0.
    destruct (Z.eqb_spec MBEDTLS_ERR_ENTROPY_NO_SOURCES_DEFINED 0); [contradiction|].
    reflexivity.
  - apply nonzero_false in Hnz. now destruct ERR_NO_SOURCES_DEFINED_nonzero.
Qed.

Lemma extract_and_or_defined n ctx w buf acc scratch :
  well_formed ctx ->
  is_Some (extract_and_or n ctx w buf acc scratch).
Proof.
  revert ctx w buf acc.
  induction n as [|n IH]; intros ctx w buf acc Hwf; simpl; [eauto|].
  destruct (entropy_func_defined ctx w buf MBEDTLS_ENTROPY_BLOCK_SIZE scratch Hwf)
    as (r & -> & Hwf').
  destruct (nonzero (f_ret r)); [eauto|]. now apply IH.
Qed.

(** X20 (self test, any build).  mbedtls_entropy_self_test always returns,
    and returns 0 or 1: the context it sets up is well formed, so neither
    its round, nor the registration of the dummy source, nor any of its
    extractions calls a null callback or leaves the array, and no error
    code of these calls is passed on. *)
Theorem entropy_self_test_defined verbose w scratch :
  exists r w',
    mbedtls_entropy_self_test verbose w scratch = Some (r, w') /\ (r = 0 \/ r = 1).
Proof.
  unfold mbedtls_entropy_self_test.
  destruct init_fresh_with as (ctx & -> & Hwf & _).
  destruct (gather_defined ctx w scratch Hwf) as (g & Hg & Hwfg).
  unfold mbedtls_entropy_gather. rewrite Hg.
  destruct (nonzero (g_ret g)); [eauto using ne0_0_or_1|].
  destruct (add_source_well_formed (g_ctx g) entropy_dummy_source NULL 16
              MBEDTLS_ENTROPY_SOURCE_WEAK Hwfg) as (ret & ctx1 & -> & Hwf1).
  destruct (nonzero ret); [eauto using ne0_0_or_1|].
  destruct (mbedtls_entropy_update_manual ctx1
              (replicate (Z.to_nat MBEDTLS_ENTROPY_BLOCK_SIZE) 0)
              MBEDTLS_ENTROPY_BLOCK_SIZE) as [ret2 ctx2] eqn:Hupd.
  assert (Hwf2 : well_formed ctx2).
  { change ctx2 with (snd (ret2, ctx2)). rewrite <- Hupd.
    unfold mbedtls_entropy_update_manual.
    eapply well_formed_forget; [| | exact Hwf1].
    - apply entropy_update_source_count.
    - now rewrite entropy_update_source. }
  destruct (nonzero ret2); [eauto using ne0_0_or_1|].
  destruct (extract_and_or_defined 8 ctx2 (g_world g)
              (replicate (Z.to_nat MBEDTLS_ENTROPY_BLOCK_SIZE) 0)
              (replicate (Z.to_nat MBEDTLS_ENTROPY_BLOCK_SIZE) 0) scratch Hwf2)
    as ([[[[ret3 buf3] acc3] ctx3] w3] & ->).
  destruct (nonzero ret3); [eauto using ne0_0_or_1|].
  destruct (some_byte_zero acc3 MBEDTLS_ENTROPY_BLOCK_SIZE); [eauto using ne0_0_or_1|].
  destruct (mbedtls_entropy_source_self_test 0 w3) as [ret4 w4].
  eauto using ne0_0_or_1.
Qed.

End SelfTestProperties.

(** * The further properties on the sample build *)

Import SampleSelfTest.

Lemma built_well_formed_one_strong :
  well_formed (EH := sample_h) (built toy_sha one_strong).
Proof.
  split; [split; [vm_compute; discriminate|]|split; [vm_compute; discriminate|reflexivity]].
  intros i Hi. change (source_count (built toy_sha one_strong)) with 1 in Hi.
  assert (i = 0) as -> by lia.
  eexists. eexists. split; reflexivity.
Qed.

(** X1, instance: an extraction on a well-formed registry is defined. *)
Lemma interface_defined_witness :
  exists res,
    extract toy_sha (built toy_sha one_strong) 16 = Some res /\
    well_formed (EH := sample_h) (f_ctx res).
Proof.
  destruct (interface_defined (EH := sample_h) (SH := toy_sha) (PF := sample_platform)
              (built toy_sha one_strong) built_well_formed_one_strong)
    as (_ & _ & _ & Hfunc).
  exact (Hfunc (0 : Z) output0 16 scratch0).
Defined.

(** X3, instance: the default build registers the clock and the hardware
    source, and the second one is Strong. *)
Lemma entropy_init_strong_witness :
  exists ctx,
    mbedtls_entropy_init (EH := sample_h) (SH := toy_sha) (EP := default_poll) = Some ctx /\
    source_count ctx = 2 /\
    strong_registered (EH := sample_h) ctx.
Proof.
  eexists. split; [reflexivity|]. split; [reflexivity|].
  apply (entropy_init_strong (EH := sample_h) (SH := toy_sha) (PF := sample_platform)
           (EP := default_poll)); [reflexivity | reflexivity | simpl; lia].
Defined.

(** X4, instance: a second source is registered at index 1. *)
Lemma add_source_on_reachable_witness :
  exists ctx',
    mbedtls_entropy_add_source (EH := sample_h) (PF := sample_platform)
      (built toy_sha one_strong) (Some stalled_poll) (0 : Z) 7 0 = Some (0, ctx') /\
    source_count ctx' = 2 /\
    threshold <$> source_at ctx' 1 = Some 7.
Proof.
  destruct (add_source_on_reachable (EH := sample_h) (SH := toy_sha)
              (PF := sample_platform) (EP := sample_poll)
              (built toy_sha one_strong) (0 : Z) (Some stalled_poll) (0 : Z) 7 0)
    as (s & ctx' & _ & Hadd & Hcount & Hnew & _).
  - apply built_reachable. vm_compute. reflexivity.
  - vm_compute. reflexivity.
  - exists ctx'. split; [exact Hadd|]. split; [exact Hcount|].
    change (source_count (built toy_sha one_strong)) with 1 in Hnew.
    rewrite Hnew. reflexivity.
Defined.

(** X5, instance: a round and an extraction on a freed context. *)
Lemma no_sources_defined_witness :
  g_ret <$> gather toy_sha (mbedtls_entropy_free (built toy_sha one_strong)) = Some (-64) /\
  extract toy_sha (mbedtls_entropy_free (built toy_sha one_strong)) 16 =
    Some {| f_ret := -64; f_ctx := mbedtls_entropy_free (built toy_sha one_strong);
            f_world := 0; f_output := output0 |}.
Proof.
  destruct (no_sources_defined (EH := sample_h) (SH := toy_sha) (PF := sample_platform)
              (mbedtls_entropy_free (built toy_sha one_strong)) (0 : Z) output0 16 scratch0)
    as (Hg & Hf & _).
  - reflexivity.
  - simpl. lia.
  - split; [|exact Hf]. unfold mbedtls_entropy_gather in Hg. rewrite Hg. reflexivity.
Defined.



(** X9, instance: two rounds are needed to reach a threshold of 8 bytes. *)
Lemma entropy_func_needs_thresholds_witness :
  exists res n c,
    extract toy_sha (built toy_sha one_strong) 16 = Some res /\
    (1 <= n <= 257)%nat /\
    gather_rounds (EH := sample_h) n (built toy_sha one_strong) (0 : Z) scratch0
      = Some (c, f_world res) /\ f_world res = 2.
Proof.
  eexists.
  match goal with
  | |- exists n c, _ = Some ?r /\ _ =>
      destruct (entropy_func_needs_thresholds (EH := sample_h) (SH := toy_sha)
                  (PF := sample_platform) (built toy_sha one_strong) (0 : Z)
                  output0 16 scratch0 r eq_refl eq_refl)
        as (n & c & Hn & Hrounds & _)
  end.
  exists n, c. split; [reflexivity|]. split; [exact Hn|]. split; [exact Hrounds|].
  reflexivity.
Defined.

(** X10, instance: the accumulator after an extraction holds the 32 bytes
    of a digest and nothing else. *)
Lemma entropy_func_feeds_forward_witness :
  exists res,
    extract toy_sha (built toy_sha one_strong) 16 = Some res /\
    length (accumulator (f_ctx res)) = 32%nat /\
    accumulator (f_ctx res) <> take 32 (f_output res).
Proof.
  eexists. split; [reflexivity|].
  match goal with
  | |- length (accumulator (f_ctx ?r)) = _ /\ _ =>
      destruct (entropy_func_feeds_forward (EH := sample_h) (SH := toy_sha)
                  (PF := sample_platform) (built toy_sha one_strong) (0 : Z)
                  output0 16 scratch0 r eq_refl eq_refl)
        as (n & c & _ & Hacc & _)
  end.
  split; [reflexivity|]. vm_compute. discriminate.
Defined.

(** X11, instance: 16 bytes are written, the other 24 keep their value. *)
Lemma entropy_func_output_window_witness :
  exists res,
    extract toy_sha (built toy_sha one_strong) 16 = Some res /\
    drop 16 (f_output res) = replicate 24 9 /\
    length (f_output res) = 40%nat.
Proof.
  eexists. split; [reflexivity|].
  match goal with
  | |- drop 16 (f_output ?r) = _ /\ _ =>
      destruct (entropy_func_output_window (EH := sample_h) (SH := toy_sha)
                  (PF := sample_platform) (built toy_sha one_strong) (0 : Z)
                  output0 16 scratch0 r)
        as (_ & Htail & Hlen)
  end.
  - intros d f. change (length (toy_digest d) = 32%nat).
    unfold toy_digest. now rewrite length_map, length_seq.
  - lia.
  - reflexivity.
  - split; [exact Htail|]. apply Hlen. vm_compute. discriminate.
Defined.

(** X12, instance: the RSA OID against a buffer that holds it. *)
Lemma TTLS_OID_CMP_zero_witness : Asn1.TTLS_OID_CMP oid_rsa oid_rsa_buf = 0.
Proof.
  apply (TTLS_OID_CMP_zero oid_rsa oid_rsa_buf); reflexivity.
Defined.

(** X13, instance: 0x30, a constructed SEQUENCE. *)
Lemma asn1_tag_masks_partition_witness :
  Z.lor (Z.land 0x30 Asn1.TTLS_ASN1_TAG_CLASS_MASK)
    (Z.lor (Z.land 0x30 Asn1.TTLS_ASN1_TAG_PC_MASK)
           (Z.land 0x30 Asn1.TTLS_ASN1_TAG_VALUE_MASK)) = 0x30.
Proof. apply (asn1_tag_masks_partition 0x30). lia. Defined.

(** X14, instance: three bytes 0xFF are reported. *)
Lemma check_bits_uniform_witness :
  mbedtls_entropy_source_self_test_check_bits [255; 255; 255] 3 = 1.
Proof.
  destruct (check_bits_uniform [255; 255; 255] 3) as [Hiff _].
  - repeat constructor; lia.
  - apply Hiff. left. repeat constructor.
Defined.

Lemma counting_poll_delivers o h b l (w' : Z) :
  0 < l ->
  poll_ret (fst (mbedtls_hardware_poll_from (HardwarePoll := counting_hw) o h b l w')) = 0 /\
  0 < poll_olen (fst (mbedtls_hardware_poll_from (HardwarePoll := counting_hw) o h b l w'))
    <= l.
Proof. intros Hl. simpl. lia. Qed.

(** X16, instance: sixteen bytes from a source that delivers up to five per
    call. *)
Lemma self_test_gather_fills_witness :
  stg_ret (mbedtls_entropy_source_self_test_gather (PF := sample_platform)
             (HP := counting_hw) (replicate 16 0) 16 (0 : Z)) = 0 /\
  stg_entropy_len (mbedtls_entropy_source_self_test_gather (PF := sample_platform)
                     (HP := counting_hw) (replicate 16 0) 16 (0 : Z)) = 16.
Proof.
  apply (self_test_gather_fills (PF := sample_platform) (HP := counting_hw)).
  - exact counting_poll_delivers.
  - lia.
Defined.

Lemma counting_poll_bytes o h (b : bytes) l (w' : Z) :
  Z.of_nat (length b) = l -> Forall (fun x => 0 <= x <= 255) b ->
  length (poll_output (fst (mbedtls_hardware_poll_from (HardwarePoll := counting_hw)
                              o h b l w'))) = length b /\
  Forall (fun x => 0 <= x <= 255)
    (poll_output (fst (mbedtls_hardware_poll_from (HardwarePoll := counting_hw)
                         o h b l w'))).
Proof.
  intros Hl Hb. simpl. split.
  - rewrite length_app, length_map, length_seq, length_drop. lia.
  - apply Forall_app. split; [|now apply Forall_drop].
    apply Forall_map, Forall_forall. intros k _. simpl.
    pose proof (Z.mod_pos_bound (17 * w' + Z.of_nat k + 1) 256 ltac:(lia)). lia.
Qed.

(** X18, instance: the counting source passes the source self test. *)
Lemma source_self_test_verdict_witness :
  fst (mbedtls_entropy_source_self_test (PF := sample_platform) (HP := counting_hw)
         0 (0 : Z)) = 0.
Proof.
  apply (source_self_test_verdict (PF := sample_platform) (HP := counting_hw) 0 (0 : Z)
           counting_poll_bytes).
  split; [reflexivity|]. split; [reflexivity|].
  split; [|split].
  - intros [Hu|Hu]; vm_compute in Hu; apply Forall_cons in Hu as [Hu _]; discriminate.
  - intros [Hu|Hu]; vm_compute in Hu; apply Forall_cons in Hu as [Hu _]; discriminate.
  - vm_compute. discriminate.
Defined.

(** X19, instance: the sample build has no default sources. *)
Lemma entropy_self_test_needs_defaults_witness :
  mbedtls_entropy_self_test (EH := sample_h) (SH := toy_sha) (PF := sample_platform)
    (EP := sample_poll) (HP := counting_hw) 0 (0 : Z) scratch0 = Some (1, 0).
Proof.
  apply (entropy_self_test_needs_defaults (EH := sample_h) (SH := toy_sha)
           (PF := sample_platform) (EP := sample_poll) (HP := counting_hw)).
  reflexivity.
Defined.


(** The source self test refuses a source that repeats itself, and one
    whose callback fails (the value -7 of the callback is not passed on). *)
Example source_self_test_refuses_constant :
  fst (mbedtls_entropy_source_self_test (PF := sample_platform) (HP := constant_hw)
         0 (0 : Z)) = 1.
Proof. vm_compute. reflexivity. Qed.

Example source_self_test_refuses_failing :
  stg_ret (mbedtls_entropy_source_self_test_gather (PF := sample_platform)
             (HP := failing_hw) (replicate 16 0) 16 (0 : Z)) = -7 /\
  fst (mbedtls_entropy_source_self_test (PF := sample_platform) (HP := failing_hw)
         0 (0 : Z)) = 1.
Proof. split; vm_compute; reflexivity. Qed.

(** The whole self test passes in a build whose default sources deliver,
    and fails there when the hash primitive does. *)
Example entropy_self_test_passes :
  fst <$> mbedtls_entropy_self_test (EH := sample_h) (SH := toy_sha)
            (PF := sample_platform) (EP := default_poll) (HP := counting_hw)
            0 (0 : Z) scratch0 = Some 0 /\
  fst <$> mbedtls_entropy_self_test (EH := sample_h) (SH := failing_sha)
            (PF := sample_platform) (EP := default_poll) (HP := counting_hw)
            0 (0 : Z) scratch0 = Some 1.
Proof. split; vm_compute; reflexivity. Qed.
